(** * Daily streak updater: a shallow embedding of [update_streak.py]

    The script keeps a JSON record of "active days" ([streak_data.json]),
    adds today's date on every run, recomputes the current and the longest
    streak, and renders a Markdown report ([STREAK.md]) that is rewritten
    only when its text changed.

    The embedding follows the script function by function.  Values decoded
    from JSON are the inductive [pyval]; Python exceptions are the type
    [exn]; the two files, the standard output and the system clock form the
    record [world], threaded through a state-and-exception monad. *)

From stdpp Require Import gmap strings list sorting pretty.
From Stdlib Require Import ZArith QArith Qround Qminmax Lia Ascii SpecFloat.

#[local] Set Warnings "-register-all,-clear-no-such-hyp".

#[local] Open Scope string_scope.
#[local] Open Scope list_scope.
#[local] Open Scope Z_scope.

(** ** Calendar dates

    A [datetime.date] is represented by its proleptic Gregorian ordinal
    ([date.toordinal()]): day 1 is 0001-01-01 and [date.max] is 9999-12-31.
    Subtracting two dates gives the difference of the ordinals in days. *)

Module DateMath.

Definition MINYEAR : Z := 1.
Definition MAXYEAR : Z := 9999.
Definition MAXORDINAL : Z := 3652059.

Definition is_leap (y : Z) : bool :=
  (y mod 4 =? 0) && (negb (y mod 100 =? 0) || (y mod 400 =? 0)).

Definition days_before_year (y : Z) : Z :=
  let y' := y - 1 in y' * 365 + y' / 4 - y' / 100 + y' / 400.

Definition days_in_month (y m : Z) : Z :=
  if m =? 2 then (if is_leap y then 29 else 28)
  else if (m =? 4) || (m =? 6) || (m =? 9) || (m =? 11) then 30
  else 31.

(** [_DAYS_BEFORE_MONTH] of the datetime module, for a common year. *)
Definition days_before_month_common (m : Z) : Z :=
  match m with
  | 1 => 0 | 2 => 31 | 3 => 59 | 4 => 90 | 5 => 120 | 6 => 151
  | 7 => 181 | 8 => 212 | 9 => 243 | 10 => 273 | 11 => 304 | _ => 334
  end.

Definition days_before_month (y m : Z) : Z :=
  days_before_month_common m + (if (2 <? m) && is_leap y then 1 else 0).

Definition ymd2ord (y m d : Z) : Z :=
  days_before_year y + days_before_month y m + d.

(** [date(y, m, d)]: the constructor checks the ranges and raises
    [ValueError] (here [None]) outside them. *)
Definition make_date (y m d : Z) : option Z :=
  if (MINYEAR <=? y) && (y <=? MAXYEAR) && (1 <=? m) && (m <=? 12)
     && (1 <=? d) && (d <=? days_in_month y m)
  then Some (ymd2ord y m d) else None.

(** [_ord2ymd] of the datetime module. *)
Definition ord2ymd (n : Z) : Z * Z * Z :=
  let n := n - 1 in
  let n400 := n / 146097 in let n := n mod 146097 in
  let n100 := n / 36524 in let n := n mod 36524 in
  let n4 := n / 1461 in let n := n mod 1461 in
  let n1 := n / 365 in let n := n mod 365 in
  let year := n400 * 400 + 1 + n100 * 100 + n4 * 4 + n1 in
  if (n1 =? 4) || (n100 =? 4) then (year - 1, 12, 31)
  else
    let leapyear := (n1 =? 3) && (negb (n4 =? 24) || (n100 =? 3)) in
    let month := Z.shiftr (n + 50) 5 in
    let preceding :=
      days_before_month_common month
      + (if (2 <? month) && leapyear then 1 else 0) in
    if n <? preceding then
      let month' := month - 1 in
      let preceding' :=
        preceding
        - (days_in_month 1 month'
           + (if (month' =? 2) && leapyear then 1 else 0)) in
      (year, month', n - preceding' + 1)
    else (year, month, n - preceding + 1).

(** Monday is 0, as [date.weekday()] has it. *)
Definition weekday (n : Z) : Z := (n + 6) mod 7.

(** *** Text form [%Y-%m-%d] *)

Definition digit (c : ascii) : option Z :=
  let n := Z.of_nat (nat_of_ascii c) in
  if (48 <=? n) && (n <=? 57) then Some (n - 48) else None.

Definition is_dash (c : ascii) : bool := Ascii.eqb c "-"%char.
Definition is_blank (c : ascii) : bool := Ascii.eqb c " "%char.

(** [%Y] is the pattern [\d\d\d\d]. *)
Definition parse_year (s : string) : option (Z * string) :=
  match s with
  | String a (String b (String c (String d rest))) =>
      match digit a, digit b, digit c, digit d with
      | Some a, Some b, Some c, Some d =>
          Some (1000 * a + 100 * b + 10 * c + d, rest)
      | _, _, _, _ => None
      end
  | _ => None
  end.

(** Two characters read as the digits [x] and [y] accepted by [ok]. *)
Definition two_digits (ok : Z -> Z -> bool) (s : string)
  : option (Z * string) :=
  match s with
  | String a (String b rest) =>
      match digit a, digit b with
      | Some x, Some y => if ok x y then Some (10 * x + y, rest) else None
      | _, _ => None
      end
  | _ => None
  end.

(** One character read as a digit from 1 to 9. *)
Definition one_digit (s : string) : option (Z * string) :=
  match s with
  | String a rest =>
      match digit a with
      | Some x => if 1 <=? x then Some (x, rest) else None
      | None => None
      end
  | _ => None
  end.

(** The alternatives of a pattern are tried from left to right. *)
Fixpoint first_match (alts : list (string -> option (Z * string)))
  (s : string) : option (Z * string) :=
  match alts with
  | [] => None
  | p :: alts' =>
      match p s with
      | Some r => Some r
      | None => first_match alts' s
      end
  end.

(** [%m] is the pattern [1[0-2]|0[1-9]|[1-9]]. *)
Definition parse_month : string -> option (Z * string) :=
  first_match
    [ two_digits (fun x y => (x =? 1) && (y <=? 2));
      two_digits (fun x y => (x =? 0) && (1 <=? y));
      one_digit ].

(** [%d] is the pattern [3[01]|[12]\d|0[1-9]|[1-9]| [1-9]]. *)
Definition parse_day : string -> option (Z * string) :=
  first_match
    [ two_digits (fun x y => (x =? 3) && (y <=? 1));
      two_digits (fun x y => ((x =? 1) || (x =? 2)));
      two_digits (fun x y => (x =? 0) && (1 <=? y));
      one_digit;
      (fun s => match s with
                | String a rest => if is_blank a then one_digit rest else None
                | _ => None
                end) ].

Definition expect_dash (s : string) : option string :=
  match s with
  | String a rest => if is_dash a then Some rest else None
  | _ => None
  end.

(** [datetime.strptime(s, "%Y-%m-%d").date()]: [None] stands for the
    [ValueError] raised when the text does not match the format, when text
    remains after the match, or when the numbers are no calendar date. *)
Definition strptime (s : string) : option Z :=
  match parse_year s with
  | Some (y, s1) =>
      match expect_dash s1 with
      | Some s2 =>
          match parse_month s2 with
          | Some (m, s3) =>
              match expect_dash s3 with
              | Some s4 =>
                  match parse_day s4 with
                  | Some (d, "") => make_date y m d
                  | _ => None
                  end
              | None => None
              end
          | None => None
          end
      | None => None
      end
  | None => None
  end.

Definition pad (width : nat) (n : Z) : string :=
  let s := pretty n in
  String.string_of_list_ascii (repeat "0"%char (width - String.length s)) +:+ s.

(** [d.strftime("%Y-%m-%d")]: month and day are padded to two digits; the
    C library behind [strftime] prints the year as it is, which are four
    digits from the year 1000 on. *)
Definition strftime (n : Z) : string :=
  let '(y, m, d) := ord2ymd n in
  pretty y +:+ "-" +:+ pad 2 m +:+ "-" +:+ pad 2 d.

(** A date plus or minus a [timedelta] must be a date again. *)
Definition in_range (n : Z) : bool := (1 <=? n) && (n <=? MAXORDINAL).

End DateMath.


(** ** Floating-point numbers

    A Python [float] is an IEEE-754 binary64 number.  Every finite binary64
    number is an integer multiple of [2^-1074], so a finite float is kept as
    that integer: [FFin k] is the number [k * 2^-1074].  The operations round
    to nearest, ties to even, with gradual underflow, and overflow to
    infinity at [2^1024]. *)

Module PyFloat.

Inductive pyfloat :=
| FNan
| FInf (neg : bool)
| FNegZero
| FFin (k : Z).

Definition SCALE : Z := 2 ^ 1074.

(** [2^1024], in units of [2^-1074]. *)
Definition OVERFLOW : Z := 2 ^ 2098.

Definition one : pyfloat := FFin SCALE.

(** Integer nearest to [num / den], ties to the even one
    ([0 <= num], [0 < den]). *)
Definition rne (num den : Z) : Z :=
  let q := num / den in
  let r := num mod den in
  if 2 * r <? den then q
  else if den <? 2 * r then q + 1
  else if Z.even q then q else q + 1.

(** The positive rational [n / d] rounded to a float, in units of
    [2^-1074] and not yet checked for overflow.  [q] is the integer part of
    the value in those units; the unit in the last place is 52 binary
    places below the leading bit of [q], so that 53 significant bits are
    kept, and is [2^-1074] itself for the subnormal values below
    [2^-1022]. *)
Definition round_pos (n d : Z) : Z :=
  let q := n * SCALE / d in
  let sh := Z.max (Z.log2 q - 52) 0 in
  rne (n * SCALE) (d * 2 ^ sh) * 2 ^ sh.

Definition is_neg (x : pyfloat) : bool :=
  match x with
  | FNan => false
  | FInf neg => neg
  | FNegZero => true
  | FFin k => k <? 0
  end.

(** Magnitude of a finite float, in units of [2^-1074]. *)
Definition magnitude (x : pyfloat) : Z :=
  match x with
  | FFin k => Z.abs k
  | _ => 0
  end.

Definition signed_zero (neg : bool) : pyfloat :=
  if neg then FNegZero else FFin 0.

(** A rounded magnitude with its sign; magnitudes from [2^1024] on become
    infinite. *)
Definition of_rounded (neg : bool) (k : Z) : pyfloat :=
  if OVERFLOW <=? k then FInf neg
  else if k =? 0 then signed_zero neg
  else FFin (if neg then - k else k).

Definition is_zero (x : pyfloat) : bool :=
  match x with
  | FNegZero => true
  | FFin k => k =? 0
  | _ => false
  end.

(** [float(z)] for an [int]: correctly rounded, [None] for the
    [OverflowError] of an [int] too large for a float. *)
Definition of_int (z : Z) : option pyfloat :=
  if z =? 0 then Some (FFin 0)
  else
    let k := round_pos (Z.abs z) 1 in
    if OVERFLOW <=? k then None
    else Some (FFin (if z <? 0 then - k else k)).

(** [a / b] for a divisor that is not zero. *)
Definition div (a b : pyfloat) : pyfloat :=
  match a, b with
  | FNan, _ | _, FNan => FNan
  | FInf _, FInf _ => FNan
  | FInf s, _ => FInf (xorb s (is_neg b))
  | _, FInf s => signed_zero (xorb (is_neg a) s)
  | _, _ =>
      let neg := xorb (is_neg a) (is_neg b) in
      if is_zero a then signed_zero neg
      else of_rounded neg (round_pos (magnitude a) (magnitude b))
  end.

(** [a * b]. *)
Definition mul (a b : pyfloat) : pyfloat :=
  match a, b with
  | FNan, _ | _, FNan => FNan
  | FInf s, _ => if is_zero b then FNan else FInf (xorb s (is_neg b))
  | _, FInf s => if is_zero a then FNan else FInf (xorb (is_neg a) s)
  | _, _ =>
      let neg := xorb (is_neg a) (is_neg b) in
      if is_zero a || is_zero b then signed_zero neg
      else of_rounded neg (round_pos (magnitude a * magnitude b)
                             (SCALE * SCALE))
  end.

(** The value of a float that is neither infinite nor a NaN, in units of
    [2^-1074]. *)
Definition value (x : pyfloat) : Z :=
  match x with
  | FFin k => k
  | _ => 0
  end.

(** [a < b]; every comparison with a NaN is false. *)
Definition ltb (a b : pyfloat) : bool :=
  match a, b with
  | FNan, _ | _, FNan => false
  | FInf true, FInf true => false
  | FInf true, _ => true
  | _, FInf true => false
  | FInf false, _ => false
  | _, FInf false => true
  | _, _ => value a <? value b
  end.

(** [int(x)] truncates towards zero. *)
Inductive truncated := TruncNan | TruncInf | Trunc (z : Z).

Definition trunc (x : pyfloat) : truncated :=
  match x with
  | FNan => TruncNan
  | FInf _ => TruncInf
  | FNegZero => Trunc 0
  | FFin k => Trunc (Z.quot k SCALE)
  end.

(** [x < z] and [x <= z] between a float and an [int] are exact. *)
Definition ltb_int (x : pyfloat) (z : Z) : bool :=
  match x with
  | FNan => false
  | FInf neg => neg
  | FNegZero => 0 <? z
  | FFin k => k <? z * SCALE
  end.

Definition leb_int (x : pyfloat) (z : Z) : bool :=
  match x with
  | FNan => false
  | FInf neg => neg
  | FNegZero => 0 <=? z
  | FFin k => k <=? z * SCALE
  end.

End PyFloat.

(** ** Python values, exceptions and the run monad *)

Import PyFloat.

(** What [json.load] returns: [None], [bool], [int], [float], [str],
    [list] and [dict] with [str] keys.  Text is a sequence of 8-bit
    characters. *)
Inductive pyval :=
| VNone
| VBool (b : bool)
| VInt (z : Z)
| VFloat (x : pyfloat)
| VStr (s : string)
| VList (l : list pyval)
| VDict (m : gmap string pyval).

Inductive exn :=
| AttributeError
| TypeError
| ValueError
| OverflowError
| ZeroDivisionError
| IndexError.

(** A computation that returns or raises. *)
Inductive res (A : Type) :=
| Ok (a : A)
| Raise (e : exn).
Arguments Ok {A} a.
Arguments Raise {A} e.

#[export] Instance res_ret : MRet res := fun A a => Ok a.
#[export] Instance res_bind : MBind res := fun A B f r =>
  match r with
  | Ok a => f a
  | Raise e => Raise e
  end.

Definition of_option {A} (e : exn) (o : option A) : res A :=
  match o with
  | Some a => Ok a
  | None => Raise e
  end.

(** [f] applied to the elements from left to right, up to the first one
    that raises. *)
Fixpoint map_res {A B} (f : A -> res B) (l : list A) : res (list B) :=
  match l with
  | [] => Ok []
  | a :: l' => b ← f a; bs ← map_res f l'; mret (b :: bs)
  end.

(** What [streak_data.json] holds: text on which [json.load] raises, or a
    JSON document.  [json.dump(v, indent=2, sort_keys=True)] writes a text
    that is a function of [v] and that [json.load] decodes to [v] again, so
    a written document is kept as the value [v] itself. *)
Inductive data_content :=
| Corrupt (raw : string)
| Document (v : pyval).

(** The surroundings of a run: the two files in the working directory
    ([None] for a file that does not exist), the lines printed so far, and
    the system clock.  [clock n] is the UTC date at the [n]-th reading of
    the clock and [ticks] counts the readings made so far. *)
Record world := World {
  data_file : option data_content;
  streak_md : option string;
  stdout : list string;
  clock : nat -> Z;
  ticks : nat;
}.

Definition M (A : Type) : Type := world -> res A * world.

#[export] Instance M_ret : MRet M := fun A a w => (Ok a, w).
#[export] Instance M_bind : MBind M := fun A B f c w =>
  match c w with
  | (Ok a, w') => f a w'
  | (Raise e, w') => (Raise e, w')
  end.

Definition lift {A} (r : res A) : M A := fun w => (r, w).

(** [datetime.utcnow()], of which the script only uses the date. *)
Definition utcnow : M Z := fun w =>
  (Ok (clock w (ticks w)),
   World (data_file w) (streak_md w) (stdout w) (clock w) (S (ticks w))).

Definition print (line : string) : M unit := fun w =>
  (Ok (),
   World (data_file w) (streak_md w) (stdout w ++ [line]) (clock w) (ticks w)).

(** *** Operations on values *)

(** [obj.get(key, default)]: only a [dict] has the method. *)
Definition py_get (obj : pyval) (key : string) (default : pyval)
  : res pyval :=
  match obj with
  | VDict m => Ok (match m !! key with Some v => v | None => default end)
  | _ => Raise AttributeError
  end.

(** [obj[key] = v] for a [str] key. *)
Definition py_setitem (obj : pyval) (key : string) (v : pyval) : res pyval :=
  match obj with
  | VDict m => Ok (VDict (<[key := v]> m))
  | _ => Raise TypeError
  end.

Definition is_str (t : string) (v : pyval) : bool :=
  match v with
  | VStr s => String.eqb s t
  | _ => false
  end.

(** [t] occurs in [s] as a substring. *)
Fixpoint substring_of (t s : string) : bool :=
  String.prefix t s ||
  match s with
  | String _ s' => substring_of t s'
  | EmptyString => false
  end.

(** [t in obj] for a [str] [t]: an element equal to [t] of a list, a key of
    a dict, a substring of a str.  No other JSON value is a container. *)
Definition py_contains (obj : pyval) (t : string) : res bool :=
  match obj with
  | VList l => Ok (existsb (is_str t) l)
  | VDict m => Ok (bool_decide (is_Some (m !! t)))
  | VStr s => Ok (substring_of t s)
  | _ => Raise TypeError
  end.

(** [obj.append(v)]: only a [list] has the method. *)
Definition py_append (obj : pyval) (v : pyval) : res pyval :=
  match obj with
  | VList l => Ok (VList (l ++ [v]))
  | _ => Raise AttributeError
  end.

Definition chars (s : string) : list string :=
  (fun c => String c EmptyString) <$> String.list_ascii_of_string s.

(** The elements that iterating over [obj] yields. *)
Definition py_iter (obj : pyval) : res (list pyval) :=
  match obj with
  | VList l => Ok l
  | VDict m => Ok (VStr <$> (map_to_list m).*1)
  | VStr s => Ok (VStr <$> chars s)
  | _ => Raise TypeError
  end.

(** [len(obj)]. *)
Definition py_len (obj : pyval) : res Z :=
  match obj with
  | VList l => Ok (Z.of_nat (length l))
  | VDict m => Ok (Z.of_nat (size m))
  | VStr s => Ok (Z.of_nat (String.length s))
  | _ => Raise TypeError
  end.

(** Truth value of [obj]. *)
Definition py_truthy (obj : pyval) : bool :=
  match obj with
  | VNone => false
  | VBool b => b
  | VInt z => negb (z =? 0)
  | VFloat x => negb (is_zero x)
  | VStr s => negb (String.eqb s "")
  | VList l => negb (Nat.eqb (length l) 0)
  | VDict m => negb (Nat.eqb (size m) 0)
  end.

(** Numbers: a [bool] is an [int] (0 or 1) in arithmetic and comparisons. *)
Inductive number :=
| NInt (z : Z)
| NFloat (x : pyfloat).

(** The number a value is; comparing or compounding any other JSON value
    with an [int] raises [TypeError]. *)
Definition as_number (v : pyval) : res number :=
  match v with
  | VBool b => Ok (NInt (if b then 1 else 0))
  | VInt z => Ok (NInt z)
  | VFloat x => Ok (NFloat x)
  | _ => Raise TypeError
  end.

(** [n < z] and [n <= z] for an [int] [z]. *)
Definition num_ltb_int (n : number) (z : Z) : bool :=
  match n with
  | NInt a => a <? z
  | NFloat x => ltb_int x z
  end.

Definition num_leb_int (n : number) (z : Z) : bool :=
  match n with
  | NInt a => a <=? z
  | NFloat x => leb_int x z
  end.

Definition num_truthy (n : number) : bool :=
  match n with
  | NInt a => negb (a =? 0)
  | NFloat x => negb (is_zero x)
  end.

(** [float(n)]. *)
Definition num_float (n : number) : res pyfloat :=
  match n with
  | NInt a => of_option OverflowError (of_int a)
  | NFloat x => Ok x
  end.

(** [a / b] for an [int] [a] and a float [b]: [a] is converted first. *)
Definition int_truediv (a : Z) (b : pyfloat) : res pyfloat :=
  fa ← of_option OverflowError (of_int a);
  if is_zero b then Raise ZeroDivisionError else Ok (div fa b).

(** [a * b] for an [int] [a] and a float [b]. *)
Definition int_mul (a : Z) (b : pyfloat) : res pyfloat :=
  fa ← of_option OverflowError (of_int a);
  Ok (mul fa b).

(** [min(1.0, x)] returns [x] when [x < 1.0] and [1.0] otherwise. *)
Definition min_one (x : pyfloat) : pyfloat :=
  if ltb x one then x else one.

(** [int(x)]. *)
Definition py_int (x : pyfloat) : res Z :=
  match trunc x with
  | TruncNan => Raise ValueError
  | TruncInf => Raise OverflowError
  | Trunc z => Ok z
  end.

(** [max(prev, z)] returns [z] when [z > prev] and [prev] otherwise. *)
Definition py_max (prev : pyval) (z : Z) : res pyval :=
  n ← as_number prev;
  Ok (if num_ltb_int n z then VInt z else prev).

(** [s * n]: no copy at all when [n] is negative. *)
Definition str_repeat (s : string) (n : Z) : string :=
  String.concat "" (replicate (Z.to_nat n) s).

(** [sep.join(l)]. *)
Definition join (sep : string) (l : list string) : string :=
  String.concat sep l.

Definition newline : string := String (ascii_of_nat 10) EmptyString.

(** [str.isspace] on the 8-bit characters that are ASCII. *)
Definition is_space (c : ascii) : bool :=
  let n := nat_of_ascii c in
  ((9 <=? n) && (n <=? 13) || (28 <=? n) && (n <=? 32))%nat.

Fixpoint lstrip (s : string) : string :=
  match s with
  | String c s' => if is_space c then lstrip s' else s
  | EmptyString => EmptyString
  end.

Definition rev_string (s : string) : string :=
  String.string_of_list_ascii (rev (String.list_ascii_of_string s)).

(** [s.strip()]. *)
Definition strip (s : string) : string :=
  rev_string (lstrip (rev_string (lstrip s))).

(** The order of [str]: character by character. *)
Definition str_le (a b : string) : Prop := String.leb a b = true.

#[export] Instance str_le_dec a b : Decision (str_le a b).
Proof. unfold str_le. apply _. Defined.

(** ** The script *)

Definition fire : string := "🔥".
Definition dot : string := "·".
Definition active_cell : string := "██".
Definition inactive_cell : string := "░░".

(** [today_str()] *)
Definition today_str : M string :=
  now ← utcnow; mret (DateMath.strftime now).

(** [to_date(s)]: [strptime] wants a [str]. *)
Definition to_date (s : pyval) : res Z :=
  match s with
  | VStr s => of_option ValueError (DateMath.strptime s)
  | _ => Raise TypeError
  end.

(** [d + timedelta(days=k)] *)
Definition date_plus (d k : Z) : res Z :=
  if DateMath.in_range (d + k) then Ok (d + k) else Raise OverflowError.

Definition fresh_record (t : string) : pyval :=
  VDict (<["dates" := VList []]>
          (<["longest_streak" := VInt 0]>
            (<["created_at" := VStr t]> ∅))).

(** [load_data()] *)
Definition load_data : M pyval := fun w =>
  match data_file w with
  | None => (t ← today_str; mret (fresh_record t)) w
  | Some (Document v) => (Ok v, w)
  | Some (Corrupt _) =>
      (* if corrupted, reset *)
      (t ← today_str; mret (fresh_record t)) w
  end.

(** [save_data(data)] *)
Definition save_data (data : pyval) : M unit := fun w =>
  (Ok (),
   World (Some (Document data)) (streak_md w) (stdout w) (clock w) (ticks w)).

Definition as_str (v : pyval) : res string :=
  match v with
  | VStr s => Ok s
  | _ => Raise TypeError
  end.

(** [normalize_dates(dates)], that is [sorted(list(set(dates)))], for a
    collection one element of which is a [str], as it is at the only call:
    [set] raises [TypeError] on an element that cannot be hashed (a list, a
    dict) and [sorted] raises [TypeError] when it compares a [str] with a
    value of another type, so the call returns only if every element is a
    [str]. *)
Definition normalize_dates (dates : pyval) : res pyval :=
  items ← py_iter dates;
  strs ← map_res as_str items;
  Ok (VList (VStr <$> merge_sort str_le (remove_dups strs))).

(** The loop of [calculate_streak] from index 1 on: [prev] is
    [dates[i - 1]] and [rest] is [dates[i:]]. *)
Fixpoint streak_loop (prev : Z) (rest : list Z) (current_chain longest : Z)
  : Z * Z :=
  match rest with
  | [] => (current_chain, longest)
  | d :: rest' =>
      let current_chain := if d - prev =? 1 then current_chain + 1 else 1 in
      let longest :=
        if longest <? current_chain then current_chain else longest in
      streak_loop d rest' current_chain longest
  end.

(** [current_chain] and [longest] after the loop. *)
Definition streak_walk (dates : list Z) : Z * Z :=
  match dates with
  | [] => (1, 1)
  | d :: rest => streak_loop d rest 1 1
  end.

(** [calculate_streak(dates_str)] *)
Definition calculate_streak (dates_str : pyval) : M (Z * Z) :=
  if negb (py_truthy dates_str) then mret (0, 0)
  else
    items ← lift (py_iter dates_str);
    parsed ← lift (map_res to_date items);
    let dates := merge_sort Z.le parsed in
    let '(current_chain, longest) := streak_walk dates in
    today ← utcnow;
    last ← lift (of_option IndexError (last dates));
    if last =? today then mret (current_chain, longest)
    else
      yesterday ← lift (date_plus today (-1));
      if last =? yesterday then mret (current_chain, longest)
      else mret (0, longest).

(** [add_today_if_missing(data)] *)
Definition add_today_if_missing (data : pyval) : M (pyval * Z * pyval) :=
  t ← today_str;
  dates ← lift (py_get data "dates" (VList []));
  present ← lift (py_contains dates t);
  dates ← lift (if present : bool then Ok dates
                else py_append dates (VStr t));
  dates ← lift (normalize_dates dates);
  data ← lift (py_setitem data "dates" dates);
  '(current, longest) ← calculate_streak dates;
  prev ← lift (py_get data "longest_streak" (VInt 0));
  best ← lift (py_max prev longest);
  data ← lift (py_setitem data "longest_streak" best);
  mret (data, current, best).

(** The number of active glyphs, [filled], of [make_bar] for a [longest]
    above zero. *)
Definition bar_filled (current : Z) (longest : number) (width : Z) : res Z :=
  den ← num_float (if num_truthy longest then longest else NInt 1);
  quotient ← int_truediv current den;
  let ratio := min_one quotient in
  if 0 <? current then
    scaled ← int_mul width ratio; py_int scaled
  else Ok 0.

(** The cells of the heatmap from [cur] to the last of [days]: the loop
    [while cur <= today] with the week under construction and the lines
    made so far. *)
Fixpoint calendar_loop (days : list Z) (start : Z) (dates : list Z)
  (week out_lines : list string) : res (list string * list string) :=
  match days with
  | [] => Ok (week, out_lines)
  | cur :: days' =>
      let cell :=
        if cur <? start then "  "
        else if bool_decide (cur ∈ dates) then active_cell
        else inactive_cell in
      let week := week ++ [cell] in
      let '(week, out_lines) :=
        if (length week =? 7)%nat then ([], out_lines ++ [join " " week])
        else (week, out_lines) in
      _ ← date_plus cur 1;
      calendar_loop days' start dates week out_lines
  end.

(** [while len(week) < 7: week.append("  ")] *)
Definition pad_week (week : list string) : list string :=
  week ++ replicate (7 - length week) "  ".

(** [make_calendar_block(dates_str, months)] *)
Definition make_calendar_block (dates_str : pyval) (months : Z) : M string :=
  if negb (py_truthy dates_str) then
    mret "_No activity yet — first run just started the engine._"
  else
    items ← lift (py_iter dates_str);
    dates ← lift (map_res to_date items);
    today ← utcnow;
    start ← lift (date_plus today (- (months * 30)));
    cur ← lift (date_plus start (- ((DateMath.weekday start + 1) mod 7)));
    let out_lines := ["Recent Activity Heatmap"; "`Su Mo Tu We Th Fr Sa`"] in
    '(week, out_lines) ←
      lift (calendar_loop (seqZ cur (today - cur + 1)) start dates []
              out_lines);
    let out_lines :=
      if (0 <? length week)%nat then out_lines ++ [join " " (pad_week week)]
      else out_lines in
    mret (join newline ((fun line => "`" +:+ line +:+ "`") <$> out_lines)).

(** [read_file(path)] and [write_if_changed(path, new_content)], which the
    script calls with [STREAK_MD] only. *)
Definition read_file : M string := fun w =>
  match streak_md w with
  | None => (Ok "", w)
  | Some text => (Ok text, w)
  end.

Definition write_file (text : string) : M unit := fun w =>
  (Ok (),
   World (data_file w) (Some text) (stdout w) (clock w) (ticks w)).

Definition write_if_changed (new_content : string) : M bool :=
  old ← read_file;
  if negb (String.eqb (strip old) (strip new_content)) then
    _ ← write_file new_content; mret true
  else mret false.

Section Report.

(** [str(v)] for a float, a list or a dict: the text Python prints for it
    is not modelled, only that it is a function of the value. *)
Variable py_repr : pyval -> string.

(** What an f-string puts for [{v}]. *)
Definition py_format (v : pyval) : string :=
  match v with
  | VNone => "None"
  | VBool true => "True"
  | VBool false => "False"
  | VInt z => pretty z
  | VStr s => s
  | _ => py_repr v
  end.

(** [make_bar(current, longest, width)] *)
Definition make_bar (current : Z) (longest : pyval) (width : Z)
  : res string :=
  n ← as_number longest;
  if num_leb_int n 0 then Ok "No streak yet. Start today. 🔥"
  else
    filled ← bar_filled current n width;
    let bar := str_repeat fire filled +:+ str_repeat dot (width - filled) in
    Ok (bar +:+ "  (" +:+ pretty current +:+ "/" +:+ py_format longest
        +:+ " days)").

Definition report_lines (current : Z) (longest : pyval) (total_days : Z)
  (created_at : pyval) (last_updated bar calendar : string) : list string :=
  [ "# 🔥 Automated Repo Streak";
    "";
    "This file is auto-updated daily by **GitHub Actions** to keep track of activity in this repository.";
    "";
    "---";
    "";
    "## 📊 Streak Status";
    "";
    "- **Current Streak:** `" +:+ pretty current +:+ "` day(s)";
    "- **Longest Streak:** `" +:+ py_format longest +:+ "` day(s)";
    "- **Total Active Days:** `" +:+ pretty total_days +:+ "`";
    "- **Tracking Since:** `" +:+ py_format created_at +:+ "`";
    "- **Last Updated (UTC):** `" +:+ last_updated +:+ "`";
    "";
    "---";
    "";
    "## 📈 Streak Progress";
    "";
    "`" +:+ bar +:+ "`";
    "";
    "---";
    "";
    "## 🗓️ Activity Overview";
    "";
    calendar;
    "";
    "---";
    "";
    "_This streak is maintained by an automated workflow in this repo. Edit `.github/workflows/daily-streak.yml` or `.github/scripts/update_streak.py` to customize._";
    "" ].

(** [render_streak_md(data, current, longest)]; the default of
    [data.get("created_at", today_str())] is evaluated, and the clock read,
    whether the key is there or not. *)
Definition render_streak_md (data : pyval) (current : Z) (longest : pyval)
  : M string :=
  dates ← lift (py_get data "dates" (VList []));
  total_days ← lift (py_len dates);
  default ← today_str;
  created_at ← lift (py_get data "created_at" (VStr default));
  last_updated ← today_str;
  bar ← lift (make_bar current longest 40);
  dates ← lift (py_get data "dates" (VList []));
  calendar ← make_calendar_block dates 4;
  mret (join newline
          (report_lines current longest total_days created_at last_updated
             bar calendar)).

(** [main()] *)
Definition main : M unit :=
  data ← load_data;
  '(data, current, longest) ← add_today_if_missing data;
  _ ← save_data data;
  new_md ← render_streak_md data current longest;
  changed ← write_if_changed new_md;
  _ ← print (if changed : bool then "✅ STREAK.md updated."
             else "ℹ️ No changes in streak data (already up-to-date).");
  dates ← lift (py_get data "dates" (VList []));
  total_days ← lift (py_len dates);
  print ("Current streak: " +:+ pretty current +:+ ", Longest streak: "
         +:+ py_format longest +:+ ", Total days: " +:+ pretty total_days).

End Report.

(** ** Notions used to state the properties *)

(** The world after [k] more readings of the clock. *)
Definition tick (k : nat) (w : world) : world :=
  World (data_file w) (streak_md w) (stdout w) (clock w) (ticks w + k).

(** [c] touches nothing but the clock, reads it at most [n] times, and its
    outcome is decided by the dates those readings return. *)
Definition clock_only {A} (n : nat) (c : M A) : Prop :=
  ∀ w, ∃ k, (k ≤ n)%nat ∧ snd (c w) = tick k w ∧
    ∀ w2, (∀ i, (i < n)%nat →
                clock w2 (ticks w2 + i)%nat = clock w (ticks w + i)%nat) →
          fst (c w2) = fst (c w) ∧ snd (c w2) = tick k w2.

(** What a run leaves behind for its caller to see. *)
Definition outputs (w : world)
  : option data_content * option string * list string :=
  (data_file w, streak_md w, stdout w).

(** The days [d], [d + 1], ..., [d + n - 1] are all among [dates]. *)
Definition is_run (dates : list Z) (d n : Z) : Prop :=
  ∀ k, 0 <= k < n → d + k ∈ dates.

(** [n] is the length of the longest run of consecutive days in [dates]. *)
Definition longest_run (dates : list Z) (n : Z) : Prop :=
  (∃ d, is_run dates d n) ∧ ∀ d m, is_run dates d m → m <= n.

(** [n] is the length of the chain of consecutive days that ends at
    [last]: the [n] days up to [last] are in [dates], the day before them is
    not. *)
Definition chain_ending_at (dates : list Z) (last n : Z) : Prop :=
  1 <= n ∧ is_run dates (last - n + 1) n ∧ last - n ∉ dates.

(** [last] is the most recent of [dates]. *)
Definition most_recent (dates : list Z) (last : Z) : Prop :=
  last ∈ dates ∧ ∀ d, d ∈ dates → d <= last.

(** The texts [ss] are valid dates, and [ds] are the days they stand for,
    in the same order. *)
Definition valid_dates (ss : list string) (ds : list Z) : Prop :=
  Forall2 (fun s d => DateMath.strptime s = Some d) ss ds.

(** The list of [str] that Python holds for the texts [ss]. *)
Definition str_list (ss : list string) : pyval := VList (VStr <$> ss).

(** The progress bar as the specification words it:
    [floor(width * min(1.0, current/longest))] active glyphs, in exact
    arithmetic. *)
Definition filled_spec (current longest width : Z) : Z :=
  Qfloor (inject_Z width * Qmin 1 (current # Z.to_pos longest))%Q.

(** The stored [longest_streak] a run starts from when it is an [int]: the
    value of the key, 0 when the key is missing, and 0 for the fresh record
    of a run that finds no file or cannot decode it. *)
Definition prior_longest (w : world) : option Z :=
  match data_file w with
  | None | Some (Corrupt _) => Some 0
  | Some (Document (VDict m)) =>
      match m !! "longest_streak" with
      | None => Some 0
      | Some (VInt p) => Some p
      | Some _ => None
      end
  | Some (Document _) => None
  end.

(** The [dates] a record file holds, when they are a list of [str]. *)
Definition stored_dates (w : world) : option (list pyval) :=
  match data_file w with
  | Some (Document (VDict m)) =>
      match m !! "dates" with
      | Some (VList l) => Some l
      | _ => None
      end
  | _ => None
  end.

(** *** The phases of a run *)

(** Two worlds agree on the next [n] readings of the clock. *)
Definition agree (n : nat) (w1 w2 : world) : Prop :=
  ∀ i, (i < n)%nat → clock w1 (ticks w1 + i)%nat = clock w2 (ticks w2 + i)%nat.

(** [w'] is [w] after [k] readings of the same clock. *)
Definition advanced (k : nat) (w w' : world) : Prop :=
  ticks w' = (ticks w + k)%nat ∧ clock w' = clock w.

(** The outcome of [c] and what it leaves behind are decided by what the
    world held when it started and by the next [n] readings of the clock. *)
Definition deterministic {A} (n : nat) (c : M A) : Prop :=
  ∀ w1 w2, outputs w1 = outputs w2 → agree n w1 w2 →
    fst (c w1) = fst (c w2) ∧
    outputs (snd (c w1)) = outputs (snd (c w2)) ∧
    ∃ k, (k ≤ n)%nat ∧ advanced k w1 (snd (c w1)) ∧ advanced k w2 (snd (c w2)).

(** [load_data] reads the clock once when it makes a fresh record and not
    at all when it decodes the file. *)
Definition readings_of_load (w : world) : nat :=
  match data_file w with
  | Some (Document _) => 0
  | _ => 1
  end.

(** The record [load_data] returns. *)
Definition loaded (w : world) : pyval :=
  match data_file w with
  | Some (Document v) => v
  | _ => fresh_record (DateMath.strftime (clock w (ticks w)))
  end.

(** The two lines [main] prints. *)
Definition changed_message (changed : bool) : string :=
  if changed then "✅ STREAK.md updated."
  else "ℹ️ No changes in streak data (already up-to-date).".

Definition summary_line (py_repr : pyval → string) (current : Z)
  (longest : pyval) (total_days : Z) : string :=
  "Current streak: " +:+ pretty current +:+ ", Longest streak: "
  +:+ py_format py_repr longest +:+ ", Total days: " +:+ pretty total_days.

(** The world after [save_data(data)]. *)
Definition saved (data : pyval) (w : world) : world :=
  World (Some (Document data)) (streak_md w) (stdout w) (clock w) (ticks w).

(** Whether [write_if_changed(new_md)] writes in the world [w]. *)
Definition report_written (new_md : string) (w : world) : bool :=
  negb (String.eqb (strip (default "" (streak_md w))) (strip new_md)).

(** The world a run ends in, from the world [w] in which the report text
    [new_md] was rendered. *)
Definition finished (py_repr : pyval → string) (current : Z)
  (longest : pyval) (total_days : Z) (new_md : string) (w : world) : world :=
  World (data_file w)
    (if report_written new_md w then Some new_md else streak_md w)
    (stdout w ++ [changed_message (report_written new_md w);
                  summary_line py_repr current longest total_days])
    (clock w) (ticks w).

(** The same world with another report file. *)
Definition with_report (report : option string) (w : world) : world :=
  World (data_file w) report (stdout w) (clock w) (ticks w).

(** *** The Standard Library's binary64, to compare the rounding with *)

(** [float(z)] as the IEEE-754 specification of the Standard Library has
    it, and its finite values in units of [2^-1074]. *)
Definition binary64_of_int (z : Z) : spec_float :=
  binary_normalize 53 1024 z 0 false.

Definition binary64_units (x : spec_float) : option Z :=
  match x with
  | S754_zero _ => Some 0
  | S754_finite s m e =>
      Some ((if s then -1 else 1) * Z.pos m * 2 ^ (e + 1074))
  | _ => None
  end.

(** [float(a) / float(b)] computed both ways. *)
Definition division_agrees (a b : Z) : bool :=
  match binary64_units
          (SFdiv 53 1024 (binary64_of_int a) (binary64_of_int b)) with
  | Some k => k =? PyFloat.round_pos a b
  | None => false
  end.

(** [40 * (float(a) / float(b))] computed both ways, for [a < b]. *)
Definition bar_product_agrees (a b : Z) : bool :=
  match binary64_units
          (SFmul 53 1024 (binary64_of_int 40)
             (SFdiv 53 1024 (binary64_of_int a) (binary64_of_int b))) with
  | Some k =>
      k =? PyFloat.round_pos (40 * PyFloat.round_pos a b) PyFloat.SCALE
  | None => false
  end.

(** *** Sample inputs *)

(** A stand-in for the text of floats, lists and dicts; no sample below
    prints such a value. *)
Definition repr_sample : pyval -> string := fun _ => "<object>".

(** 2024-01-03 at every reading. *)
Definition noon : nat -> Z := fun _ => 738888.

(** A run that starts on 2024-01-03 just before midnight: the first reading
    of the clock falls on that day, the later ones on 2024-01-04. *)
Definition midnight : nat -> Z :=
  fun n => match n with O => 738888 | _ => 738889 end.

Definition three_days : pyval :=
  VDict (<["dates" := str_list ["2024-01-01"; "2024-01-02"; "2024-01-03"]]>
          (<["longest_streak" := VInt 3]>
            (<["created_at" := VStr "2024-01-01"]> ∅))).

(** A file that is valid JSON and holds no valid record. *)
Definition bad_record : pyval :=
  VDict (<["dates" := str_list ["yesterday"]]> ∅).

Definition world_of (file : option data_content) (report : option string)
  (clk : nat -> Z) : world :=
  World file report [] clk 0.

(** Three days in a row, as texts and as ordinals. *)
Definition january : list string := ["2024-01-01"; "2024-01-02"; "2024-01-03"].
Definition january_days : list Z := [738886; 738887; 738888].

(** A first run, with no files yet; a run that finds the three days; and a
    first run whose clock has been read seven times before. *)
Definition first_run : world := world_of None None noon.
Definition later_run : world :=
  world_of (Some (Document three_days)) None noon.
Definition same_day_run : world := World None None [] noon 7.

(** *** A record of the script's own *)

(** 1000-01-01, the first day whose year [strftime] prints with four
    digits. *)
Definition first_text_day : Z := 364878.

(** A text that [today_str] has written: the text of a day from
    1000-01-01 to 9999-12-31. *)
Definition own_text (s : string) : Prop :=
  ∃ d, first_text_day <= d <= DateMath.MAXORDINAL ∧ s = DateMath.strftime d.



(** Every reading of the clock falls between 1000-01-01 and 9999-12-30. *)
Definition clock_in_range (w : world) : Prop :=
  ∀ n, first_text_day <= clock w n < DateMath.MAXORDINAL.

(** *** More sample inputs *)

(** Two dates out of order, one of them twice. *)
Definition shuffled_dates : list string :=
  ["2024-01-02"; "2024-01-01"; "2024-01-02"].
Definition ordered_dates : list string := ["2024-01-01"; "2024-01-02"].

(** The fields of [three_days]. *)
Definition three_days_fields : gmap string pyval :=
  <["dates" := str_list ["2024-01-01"; "2024-01-02"; "2024-01-03"]]>
    (<["longest_streak" := VInt 3]>
      (<["created_at" := VStr "2024-01-01"]> ∅)).

Definition list_run : world := world_of (Some (Document (VList []))) None noon.

(** * The model on sample inputs *)

(** ** Dates *)

Example strptime_iso : DateMath.strptime "2024-01-03" = Some 738888.
Proof. reflexivity. Qed.

(** The directives [%m] and [%d] take one digit as well as two. *)
Example strptime_unpadded : DateMath.strptime "2024-1-3" = Some 738888.
Proof. reflexivity. Qed.

Example strptime_feb30 : DateMath.strptime "2023-02-30" = None.
Proof. reflexivity. Qed.

Example strptime_trailing : DateMath.strptime "2024-01-032" = None.
Proof. reflexivity. Qed.

Example strptime_words : DateMath.strptime "yesterday" = None.
Proof. reflexivity. Qed.

Example strftime_iso : DateMath.strftime 738888 = "2024-01-03".
Proof. reflexivity. Qed.

(** 2024-01-03 was a Wednesday. *)
Example weekday_wed : DateMath.weekday 738888 = 2.
Proof. reflexivity. Qed.

(** ** Floats *)

(** The rounding of [PyFloat] gives the quotients and the products that the
    IEEE-754 specification of the Standard Library gives. *)
Example division_checked :
  forallb (fun b => forallb (fun a => division_agrees a b) (seqZ 1 8))
    (seqZ 1 8) = true.
Proof. vm_compute. reflexivity. Qed.

Example division_checked_large :
  forallb (fun '(a, b) => division_agrees a b)
    [(3, 2 ^ 1023); (5, 2 ^ 1023 + 2 ^ 1000); (2 ^ 60 - 1, 2 ^ 60);
     (2 ^ 53 - 1, 2 ^ 62 + 1); (2 ^ 1023 - 1, 3)] = true.
Proof. vm_compute. reflexivity. Qed.

Example bar_product_checked :
  forallb (fun b => forallb (fun a => bar_product_agrees a b)
                      (seqZ 1 (b - 1)))
    (seqZ 2 6) = true.
Proof. vm_compute. reflexivity. Qed.

Example bar_7_of_10 : bar_filled 7 (NInt 10) 40 = Ok 28.
Proof. vm_compute. reflexivity. Qed.

Example bar_39_of_40 : bar_filled 39 (NInt 40) 40 = Ok 39.
Proof. vm_compute. reflexivity. Qed.

Example bar_none : bar_filled 0 (NInt 10) 40 = Ok 0.
Proof. vm_compute. reflexivity. Qed.

(** ** The calculator and a run *)

Example streak_january :
  fst (calculate_streak (str_list january) first_run) = Ok (3, 3).
Proof. vm_compute. reflexivity. Qed.

(** A gap of one day ends the current streak and keeps the longest. *)
Example streak_stale :
  fst (calculate_streak
         (str_list ["2023-12-29"; "2023-12-30"; "2023-12-31"; "2024-01-01"])
         first_run) = Ok (0, 4).
Proof. vm_compute. reflexivity. Qed.

Example streak_words :
  fst (calculate_streak (str_list ["yesterday"]) first_run)
  = Raise ValueError.
Proof. vm_compute. reflexivity. Qed.

Example first_run_prints :
  fst (main repr_sample first_run) = Ok () ∧
  stdout (snd (main repr_sample first_run))
  = ["✅ STREAK.md updated.";
     "Current streak: 1, Longest streak: 1, Total days: 1"].
Proof. split; vm_compute; reflexivity. Qed.

(** * Properties *)

(** ** The run monad *)

Lemma bind_ok {A B} (c : M A) (f : A → M B) w a w1 :
  c w = (Ok a, w1) → (c ≫= f) w = f a w1.
Proof. intros H. unfold mbind, M_bind. by rewrite H. Qed.

Lemma bind_raise {A B} (c : M A) (f : A → M B) w e w1 :
  c w = (Raise e, w1) → (c ≫= f) w = (Raise e, w1).
Proof. intros H. unfold mbind, M_bind. by rewrite H. Qed.

Lemma bind_inv {A B} (c : M A) (f : A → M B) w b w' :
  (c ≫= f) w = (Ok b, w') → ∃ a w1, c w = (Ok a, w1) ∧ f a w1 = (Ok b, w').
Proof.
  unfold mbind, M_bind. destruct (c w) as [[a|e] w1]; intros H.
  - by exists a, w1.
  - discriminate.
Qed.

Lemma lift_inv {A} (r : res A) w a w' :
  lift r w = (Ok a, w') → r = Ok a ∧ w' = w.
Proof. unfold lift. intros [= -> ->]. done. Qed.

Lemma tick_0 w : tick 0 w = w.
Proof. destruct w. unfold tick. simpl. f_equal. lia. Qed.

Lemma tick_tick j k w : tick k (tick j w) = tick (j + k) w.
Proof. unfold tick. simpl. f_equal. lia. Qed.

Lemma clock_only_ret {A} (a : A) : clock_only 0 (mret a).
Proof.
  intros w. exists 0%nat. split; [lia|]. split.
  - simpl. by rewrite tick_0.
  - intros w2 _. simpl. by rewrite tick_0.
Qed.

Lemma clock_only_lift {A} (r : res A) : clock_only 0 (lift r).
Proof.
  intros w. exists 0%nat. split; [lia|]. split.
  - simpl. by rewrite tick_0.
  - intros w2 _. simpl. by rewrite tick_0.
Qed.

Lemma clock_only_utcnow : clock_only 1 utcnow.
Proof.
  intros w. exists 1%nat. split; [lia|]. split.
  - unfold utcnow, tick. simpl. f_equal. lia.
  - intros w2 H. unfold utcnow, tick. simpl. split.
    + f_equal. specialize (H 0%nat). rewrite !Nat.add_0_r in H. apply H. lia.
    + f_equal. lia.
Qed.

Lemma clock_only_weaken {A} n m (c : M A) :
  (n ≤ m)%nat → clock_only n c → clock_only m c.
Proof.
  intros Hnm Hc w. destruct (Hc w) as (k & Hk & Hw & Hag).
  exists k. split; [lia|]. split; [done|].
  intros w2 H. apply Hag. intros i Hi. apply H. lia.
Qed.

Lemma clock_only_bind {A B} n m (c : M A) (f : A → M B) :
  clock_only n c → (∀ a, clock_only m (f a)) →
  clock_only (n + m) (c ≫= f).
Proof.
  intros Hc Hf w. destruct (Hc w) as (k1 & Hk1 & Hw1 & Hag1).
  destruct (c w) as [[a|e] w1] eqn:Hcw; simpl in Hw1; subst w1.
  - destruct (Hf a (tick k1 w)) as (k2 & Hk2 & Hw2 & Hag2).
    exists (k1 + k2)%nat. split; [lia|].
    rewrite (bind_ok _ _ _ _ _ Hcw). split.
    + by rewrite Hw2, tick_tick.
    + intros w2 H.
      destruct (Hag1 w2) as [Hr Hs]; [intros i Hi; apply H; lia|].
      simpl in Hr. destruct (c w2) as [r2 w2'] eqn:Hcw2. simpl in Hr, Hs.
      subst r2 w2'. rewrite (bind_ok _ _ _ _ _ Hcw2).
      destruct (Hag2 (tick k1 w2)) as [Hr2 Hs2].
      { intros i Hi. simpl. rewrite <- !Nat.add_assoc. apply H. lia. }
      split; [done|]. by rewrite Hs2, tick_tick.
  - exists k1. split; [lia|].
    rewrite (bind_raise _ _ _ _ _ Hcw). split; [done|].
    intros w2 H.
    destruct (Hag1 w2) as [Hr Hs]; [intros i Hi; apply H; lia|].
    simpl in Hr. destruct (c w2) as [r2 w2'] eqn:Hcw2. simpl in Hr, Hs.
    subst r2 w2'. by rewrite (bind_raise _ _ _ _ _ Hcw2).
Qed.

Lemma clock_only_today_str : clock_only 1 today_str.
Proof.
  unfold today_str. apply (clock_only_bind 1 0); [apply clock_only_utcnow|].
  intros. apply clock_only_ret.
Qed.

(** ** A run is decided by the files and the readings of the clock *)

(** One step of a proof that a sequence of commands only reads the clock:
    the budget of readings is spent on the commands that read it. *)
Ltac clock_step :=
  lazymatch goal with
  | |- clock_only _ (mret _) =>
      apply (clock_only_weaken 0); [lia | apply clock_only_ret]
  | |- clock_only _ (lift _) =>
      apply (clock_only_weaken 0); [lia | apply clock_only_lift]
  | |- clock_only _ (lift _ ≫= _) =>
      apply (clock_only_bind 0); [apply clock_only_lift | intros ?]
  | |- clock_only (S ?n) (?c ≫= _) =>
      apply (clock_only_bind 1 n); [ | intros ?]
  | |- clock_only _ (if ?b then _ else _) => destruct b
  | |- clock_only _ (let '(_, _) := ?p in _) => destruct p
  | |- clock_only _ (match ?p with _ => _ end) => destruct p
  end.

Lemma clock_only_calculate_streak dates_str :
  clock_only 1 (calculate_streak dates_str).
Proof.
  unfold calculate_streak. repeat clock_step.
  apply clock_only_utcnow.
Qed.

Lemma clock_only_add_today data : clock_only 2 (add_today_if_missing data).
Proof.
  unfold add_today_if_missing. clock_step; [apply clock_only_today_str|].
  repeat clock_step. apply clock_only_calculate_streak. 
Qed.

Lemma clock_only_calendar dates_str months :
  clock_only 1 (make_calendar_block dates_str months).
Proof.
  unfold make_calendar_block. repeat clock_step. apply clock_only_utcnow.
Qed.

Lemma clock_only_render py_repr data current longest :
  clock_only 3 (render_streak_md py_repr data current longest).
Proof.
  unfold render_streak_md. do 2 clock_step.
  clock_step; [apply clock_only_today_str|]. clock_step.
  clock_step; [apply clock_only_today_str|]. do 2 clock_step.
  apply (clock_only_bind 1 0); [apply clock_only_calendar|].
  intros. apply clock_only_ret.
Qed.

Lemma deterministic_clock_only {A} n (c : M A) :
  clock_only n c → deterministic n c.
Proof.
  intros Hc w1 w2 Hout Hag.
  destruct (Hc w2) as (k & Hk & Hs & Hrel).
  destruct (Hrel w1 Hag) as [Hr1 Hs1].
  rewrite Hr1, Hs1, Hs. split; [done|]. split; [done|].
  exists k. by repeat split.
Qed.

Lemma deterministic_bind {A B} n m (c : M A) (f : A → M B) :
  deterministic n c → (∀ a, deterministic m (f a)) →
  deterministic (n + m) (c ≫= f).
Proof.
  intros Hc Hf w1 w2 Hout Hag.
  destruct (Hc w1 w2 Hout) as (Hr & Ho & k & Hk & [Ht1 Hc1] & [Ht2 Hc2]).
  { intros i Hi. apply Hag. lia. }
  destruct (c w1) as [r1 w1'] eqn:E1, (c w2) as [r2 w2'] eqn:E2.
  simpl in *. subst r2. destruct r1 as [a|e].
  - rewrite (bind_ok _ _ _ _ _ E1), (bind_ok _ _ _ _ _ E2).
    destruct (Hf a w1' w2' Ho) as (Hr' & Ho' & k' & Hk' & [Ht1' Hc1'] & [Ht2' Hc2']).
    { intros i Hi. rewrite Ht1, Ht2, Hc1, Hc2, <- !Nat.add_assoc.
      apply Hag. lia. }
    split; [done|]. split; [done|]. exists (k + k')%nat.
    split; [lia|]. unfold advanced. rewrite Ht1', Ht2', Hc1', Hc2', Ht1, Ht2.
    repeat split; (lia || done).
  - rewrite (bind_raise _ _ _ _ _ E1), (bind_raise _ _ _ _ _ E2). simpl.
    split; [done|]. split; [done|]. exists k. split; [lia|]. by repeat split.
Qed.

Lemma deterministic_weaken {A} n m (c : M A) :
  (n ≤ m)%nat → deterministic n c → deterministic m c.
Proof.
  intros Hnm Hc w1 w2 Hout Hag.
  destruct (Hc w1 w2 Hout) as (Hr & Ho & k & Hk & H1 & H2).
  { intros i Hi. apply Hag. lia. }
  split; [done|]. split; [done|]. exists k. split; [lia|]. done.
Qed.

Lemma deterministic_load_data : deterministic 1 load_data.
Proof.
  intros w1 w2 Hout Hag. unfold load_data.
  assert (data_file w1 = data_file w2) as Hd by (by injection Hout).
  rewrite <- Hd.
  pose proof (deterministic_clock_only 1 (t ← today_str; mret (fresh_record t))) as Hfresh.
  assert (clock_only 1 (t ← today_str; mret (fresh_record t))) as Hco.
  { apply (clock_only_bind 1 0); [apply clock_only_today_str|].
    intros; apply clock_only_ret. }
  specialize (Hfresh Hco w1 w2 Hout Hag).
  destruct (data_file w1) as [[raw|v]|]; try exact Hfresh.
  simpl. split; [done|]. split; [done|]. exists 0%nat.
  split; [lia|]. unfold advanced. by rewrite !Nat.add_0_r.
Qed.

Lemma deterministic_save_data data : deterministic 0 (save_data data).
Proof.
  intros w1 w2 Hout Hag. unfold save_data, outputs in *. simpl.
  injection Hout as Hd Hs Ho. rewrite Hs, Ho. split; [done|]. split; [done|].
  exists 0%nat. split; [lia|]. unfold advanced. simpl.
  by rewrite !Nat.add_0_r.
Qed.

Lemma deterministic_print line : deterministic 0 (print line).
Proof.
  intros w1 w2 Hout Hag. unfold print, outputs in *. simpl.
  injection Hout as Hd Hs Ho. rewrite Hd, Hs, Ho.
  split; [reflexivity|]. split; [reflexivity|].
  exists 0%nat. split; [lia|]. unfold advanced. simpl.
  by rewrite !Nat.add_0_r.
Qed.

Lemma deterministic_write_if_changed new_content :
  deterministic 0 (write_if_changed new_content).
Proof.
  intros w1 w2 Hout Hag. unfold write_if_changed, read_file, write_file.
  unfold mbind, M_bind, mret, M_ret, outputs in *. simpl.
  injection Hout as Hd Hs Ho. rewrite Hs.
  destruct (streak_md w2) as [old|] eqn:E2;
    (destruct (negb _); simpl; rewrite ?Hd, ?Ho, ?Hs, ?E2;
     (split; [done|]); (split; [done|]); exists 0%nat; (split; [lia|]);
     unfold advanced; simpl; by rewrite !Nat.add_0_r).
Qed.

Lemma deterministic_main py_repr : deterministic 6 (main py_repr).
Proof.
  unfold main.
  apply (deterministic_bind 1 5); [apply deterministic_load_data|].
  intros data.
  apply (deterministic_bind 2 3);
    [apply deterministic_clock_only, clock_only_add_today|].
  intros [[data' current] longest].
  apply (deterministic_bind 0 3); [apply deterministic_save_data|].
  intros _.
  apply (deterministic_bind 3 0);
    [apply deterministic_clock_only, clock_only_render|].
  intros new_md.
  apply (deterministic_bind 0 0); [apply deterministic_write_if_changed|].
  intros changed.
  apply (deterministic_bind 0 0); [apply deterministic_print|].
  intros _.
  apply (deterministic_bind 0 0);
    [apply deterministic_clock_only, clock_only_lift|].
  intros dates.
  apply (deterministic_bind 0 0);
    [apply deterministic_clock_only, clock_only_lift|].
  intros total. apply deterministic_print.
Qed.

(** Claim C3, amended.  No date is held for the length of a run: the clock
    is read afresh at each use, at most six times.  The outcome of a run
    and what it leaves behind (record, report, printed lines) are decided
    by the files it starts from and by those readings: two runs from the
    same files whose successive readings of the clock agree end alike, after
    the same number of readings. *)
Theorem main_outputs_determined py_repr w1 w2 :
  outputs w1 = outputs w2 →
  (∀ i, (i < 6)%nat → clock w1 (ticks w1 + i)%nat = clock w2 (ticks w2 + i)%nat) →
  fst (main py_repr w1) = fst (main py_repr w2) ∧
  outputs (snd (main py_repr w1)) = outputs (snd (main py_repr w2)) ∧
  ∃ k, (k ≤ 6)%nat ∧
    ticks (snd (main py_repr w1)) = (ticks w1 + k)%nat ∧
    ticks (snd (main py_repr w2)) = (ticks w2 + k)%nat.
Proof.
  intros Hout Hclock.
  destruct (deterministic_main py_repr w1 w2 Hout Hclock)
    as (Hr & Ho & k & Hk & [Ht1 _] & [Ht2 _]).
  split; [exact Hr|]. split; [exact Ho|]. by exists k.
Qed.

(** ** The streak calculator *)

Lemma is_run_mono dates dates' d n :
  (∀ x, x ∈ dates → x ∈ dates') → is_run dates d n → is_run dates' d n.
Proof. intros Hsub Hrun k Hk. apply Hsub, Hrun, Hk. Qed.

Lemma most_recent_unique dates a b :
  most_recent dates a → most_recent dates b → a = b.
Proof. intros [Ha Hla] [Hb Hlb]. apply Hla in Hb. apply Hlb in Ha. lia. Qed.

Lemma most_recent_last dates x :
  StronglySorted Z.lt dates → last dates = Some x → most_recent dates x.
Proof.
  induction 1 as [|a l Hs IH Hall]; [done|].
  destruct l as [|b l'].
  - intros [= ->]. split; [set_solver|]. intros d Hd. 
    apply list_elem_of_singleton in Hd. lia.
  - intros Hl. change (last (b :: l') = Some x) in Hl.
    destruct (IH Hl) as [Hin Hmax]. split; [set_solver|].
    intros d Hd. apply elem_of_cons in Hd as [->|Hd]; [|by apply Hmax].
    rewrite Forall_forall in Hall. specialize (Hall x Hin). lia.
Qed.

Lemma streak_loop_spec rest : ∀ pre prev chain longest,
  StronglySorted Z.lt (pre ++ rest) →
  most_recent pre prev →
  chain_ending_at pre prev chain →
  longest_run pre longest →
  ∃ last c l,
    streak_loop prev rest chain longest = (c, l) ∧
    most_recent (pre ++ rest) last ∧
    chain_ending_at (pre ++ rest) last c ∧
    longest_run (pre ++ rest) l.
Proof.
  induction rest as [|d rest IH]; intros pre prev chain longest Hs Hmax Hch Hlong.
  - exists prev, chain, longest. rewrite app_nil_r. done.
  - simpl.
    assert (prev < d) as Hlt.
    { apply (StronglySorted_app_1_elem_of _ _ _ _ _ Hs); [apply Hmax|set_solver]. }
    assert (∀ x, x ∈ pre → x < d) as Hbelow.
    { intros x Hx. destruct Hmax as [_ Hmax]. specialize (Hmax x Hx). lia. }
    set (chain' := if d - prev =? 1 then chain + 1 else 1).
    set (longest' := if longest <? chain' then chain' else longest).
    assert (most_recent (pre ++ [d]) d) as Hmax'.
    { split; [set_solver|]. intros x Hx.
      apply elem_of_app in Hx as [Hx|Hx]; [specialize (Hbelow x Hx); lia|].
      apply list_elem_of_singleton in Hx. lia. }
    assert (chain_ending_at (pre ++ [d]) d chain') as Hch'.
    { destruct Hch as (Hc1 & Hrun & Hout). subst chain'.
      destruct (Z.eqb_spec (d - prev) 1) as [E|E].
      - split; [lia|]. split.
        + intros k Hk. destruct (decide (k = chain)) as [->|Hne].
          * replace (d - (chain + 1) + 1 + chain) with d by lia. set_solver.
          * apply elem_of_app. left.
            replace (d - (chain + 1) + 1 + k) with (prev - chain + 1 + k) by lia.
            apply Hrun. lia.
        + intros Hin. apply elem_of_app in Hin as [Hin|Hin].
          * apply Hout. by replace (prev - chain) with (d - (chain + 1)) by lia.
          * apply list_elem_of_singleton in Hin. lia.
      - split; [lia|]. split.
        + intros k Hk. replace (d - 1 + 1 + k) with d by lia. set_solver.
        + intros Hin. apply elem_of_app in Hin as [Hin|Hin].
          * destruct Hmax as [_ Hmax]. specialize (Hmax _ Hin). lia.
          * apply list_elem_of_singleton in Hin. lia. }
    assert (longest_run (pre ++ [d]) longest') as Hlong'.
    { destruct Hlong as [[d0 Hrun0] Hub]. subst longest'. split.
      - destruct (Z.ltb_spec longest chain').
        + destruct Hch' as (_ & Hr & _). eauto.
        + exists d0. eapply is_run_mono; [|exact Hrun0]. set_solver.
      - intros d1 m Hrun1.
        assert (1 <= chain') as Hc1 by apply Hch'.
        assert (0 <= longest) as Hl0.
        { apply (Hub 0 0). intros k Hk. lia. }
        destruct (Z.le_gt_cases m 0) as [Hm|Hm].
        { destruct (longest <? chain'); lia. }
        destruct (decide (d1 + m - 1 < d)) as [Hend|Hend].
        + assert (m <= longest); [|destruct (Z.ltb_spec longest chain'); lia].
          apply (Hub d1). intros k Hk. specialize (Hrun1 k Hk).
          apply elem_of_app in Hrun1 as [Hin|Hin]; [done|].
          apply list_elem_of_singleton in Hin. lia.
        + assert (d1 + m - 1 = d) as Hlast.
          { destruct Hmax' as [_ Hm']. 
            specialize (Hm' (d1 + (m - 1))). 
            assert (d1 + (m - 1) <= d); [apply Hm', Hrun1; lia|lia]. }
          assert (m <= chain'); [|destruct (Z.ltb_spec longest chain'); lia].
          destruct Hch' as (_ & _ & Hout).
          destruct (Z.le_gt_cases m chain') as [|Hgt]; [done|].
          exfalso. apply Hout.
          replace (d - chain') with (d1 + (m - 1 - chain')) by lia.
          apply Hrun1. lia. }
    destruct (IH (pre ++ [d]) d chain' longest') as (last & c & l & Heq & H1 & H2 & H3);
      try done.
    { by rewrite <- app_assoc. }
    exists last, c, l. rewrite <- app_assoc in H1, H2, H3. done.
Qed.

Lemma streak_walk_spec dates :
  dates ≠ [] → StronglySorted Z.lt dates →
  ∃ last c l,
    streak_walk dates = (c, l) ∧ most_recent dates last ∧
    chain_ending_at dates last c ∧ longest_run dates l.
Proof.
  destruct dates as [|d rest]; [done|]. intros _ Hs. simpl.
  apply (streak_loop_spec rest [d] d 1 1 Hs).
  - split; [set_solver|]. intros x Hx. apply list_elem_of_singleton in Hx. lia.
  - split; [lia|]. split.
    + intros k Hk. replace (d - 1 + 1 + k) with d by lia. set_solver.
    + intros Hin. apply list_elem_of_singleton in Hin. lia.
  - split.
    + exists d. intros k Hk. replace (d + k) with d by lia. set_solver.
    + intros d0 m Hrun. destruct (Z.le_gt_cases m 1) as [|Hm]; [done|].
      pose proof (Hrun 0 ltac:(lia)) as H0. pose proof (Hrun 1 ltac:(lia)) as H1.
      apply list_elem_of_singleton in H0, H1. lia.
Qed.

Lemma strictly_sorted (l : list Z) :
  StronglySorted Z.le l → NoDup l → StronglySorted Z.lt l.
Proof.
  induction 1 as [|a l Hs IH Hall]; intros Hnd; [constructor|].
  apply NoDup_cons in Hnd as [Hnotin Hnd]. constructor; [by apply IH|].
  rewrite Forall_forall in *. intros x Hx. specialize (Hall x Hx).
  assert (a ≠ x) by (intros ->; done). lia.
Qed.

Lemma sorted_dates (ds : list Z) :
  NoDup ds → StronglySorted Z.lt (merge_sort Z.le ds).
Proof.
  intros Hnd. apply strictly_sorted.
  - apply (StronglySorted_merge_sort _).
  - by rewrite merge_sort_Permutation.
Qed.

Lemma elem_of_sorted_dates (ds : list Z) x :
  x ∈ merge_sort Z.le ds ↔ x ∈ ds.
Proof. by rewrite merge_sort_Permutation. Qed.

Lemma map_res_to_date ss ds :
  valid_dates ss ds → map_res to_date (VStr <$> ss) = Ok ds.
Proof.
  induction 1 as [|s d ss ds Hs _ IH]; [done|].
  rewrite fmap_cons. cbn [map_res]. rewrite IH.
  unfold to_date. by rewrite Hs.
Qed.

Lemma valid_dates_nil ss ds : valid_dates ss ds → ss ≠ [] → ds ≠ [].
Proof. by destruct 1. Qed.

Lemma last_is_Some {A} (l : list A) : l ≠ [] → ∃ x, last l = Some x.
Proof.
  intros H. destruct (last l) eqn:E; [eauto|].
  by apply last_None in E.
Qed.

Lemma bind_lift {A B} (a : A) (f : A → M B) w :
  (lift (Ok a) ≫= f) w = f a w.
Proof. done. Qed.

Lemma bind_lift_raise {A B} e (f : A → M B) w :
  (lift (Raise e) ≫= f) w = (Raise e, w).
Proof. done. Qed.

Lemma bind_utcnow {B} (f : Z → M B) w :
  (utcnow ≫= f) w = f (clock w (ticks w)) (tick 1 w).
Proof.
  unfold mbind, M_bind, utcnow, tick. do 2 f_equal. lia.
Qed.

Lemma calculate_streak_spec ss ds w :
  valid_dates ss ds → NoDup ds → ss ≠ [] →
  ∃ last chain longest,
    most_recent ds last ∧ chain_ending_at ds last chain ∧
    longest_run ds longest ∧
    calculate_streak (str_list ss) w =
      (let today := clock w (ticks w) in
       if last =? today then Ok (chain, longest)
       else if DateMath.in_range (today + -1) then
              Ok (if last =? today + -1 then chain else 0, longest)
            else Raise OverflowError,
       tick 1 w).
Proof.
  intros Hvalid Hnd Hne.
  pose proof (valid_dates_nil _ _ Hvalid Hne) as Hds.
  assert (merge_sort Z.le ds ≠ []) as Hsd.
  { intros E. apply Hds. apply Permutation_nil_r. 
    by rewrite <- (merge_sort_Permutation Z.le ds), E. }
  destruct (streak_walk_spec _ Hsd (sorted_dates _ Hnd))
    as (lst & c & l & Hwalk & Hmax & Hch & Hlong).
  destruct (last_is_Some _ Hsd) as [x Hx].
  assert (x = lst) as ->.
  { eapply most_recent_unique; [|exact Hmax].
    apply most_recent_last; [by apply sorted_dates|done]. }
  exists lst, c, l. split; [|split; [|split]].
  - destruct Hmax as [Hin Hle]. split; [by apply elem_of_sorted_dates|].
    intros d Hd. by apply Hle, elem_of_sorted_dates.
  - destruct Hch as (H1 & Hrun & Hout). split; [done|]. split.
    + intros k Hk. by apply elem_of_sorted_dates, Hrun.
    + by rewrite <- elem_of_sorted_dates.
  - destruct Hlong as [[d0 Hrun] Hub]. split.
    + exists d0. intros k Hk. by apply elem_of_sorted_dates, Hrun.
    + intros d1 m Hr. apply (Hub d1). intros k Hk.
      by apply elem_of_sorted_dates, Hr.
  - unfold calculate_streak, str_list.
    assert (py_truthy (VList (VStr <$> ss)) = true) as ->.
    { by destruct ss. }
    cbn [negb py_iter]. rewrite bind_lift, (map_res_to_date _ _ Hvalid).
    rewrite bind_lift, Hwalk, bind_utcnow, Hx. cbn [of_option].
    rewrite bind_lift. destruct (lst =? clock w (ticks w)); [done|].
    unfold date_plus. destruct (DateMath.in_range _); [|done].
    rewrite bind_lift. by destruct (lst =? _).
Qed.

(** ** The order of strings and [normalize_dates] *)

Lemma ascii_compare_lt_trans a b c :
  Ascii.compare a b = Lt → Ascii.compare b c ≠ Gt → Ascii.compare a c = Lt.
Proof.
  unfold Ascii.compare. rewrite !N.compare_lt_iff, N.compare_gt_iff. lia.
Qed.

Lemma string_compare_trans a : ∀ b c,
  String.compare a b ≠ Gt → String.compare b c ≠ Gt →
  String.compare a c ≠ Gt.
Proof.
  induction a as [|x a IH]; intros [|y b] [|z c]; simpl; try done.
  destruct (Ascii.compare x y) eqn:Exy; [| |done].
  - apply Ascii.compare_eq_iff in Exy as ->.
    destruct (Ascii.compare y z); [apply IH|done|done].
  - intros _ Hyz.
    rewrite (ascii_compare_lt_trans x y z); [done|done|].
    by destruct (Ascii.compare y z).
Qed.

Lemma str_le_compare a b : str_le a b ↔ String.compare a b ≠ Gt.
Proof. unfold str_le, String.leb. by destruct (String.compare a b). Qed.

#[export] Instance str_le_trans : Transitive str_le.
Proof.
  intros a b c. rewrite !str_le_compare. apply string_compare_trans.
Qed.

#[export] Instance str_le_total : Total str_le.
Proof. intros a b. apply String.leb_total. Qed.

#[export] Instance str_le_antisym : AntiSymm eq str_le.
Proof. intros a b. apply String.leb_antisym. Qed.

Lemma normalized_sorted strs :
  StronglySorted str_le (merge_sort str_le (remove_dups strs)).
Proof. apply (StronglySorted_merge_sort _). Qed.

Lemma normalized_NoDup strs : NoDup (merge_sort str_le (remove_dups strs)).
Proof. rewrite merge_sort_Permutation. apply NoDup_remove_dups. Qed.

Lemma elem_of_normalized strs s :
  s ∈ merge_sort str_le (remove_dups strs) ↔ s ∈ strs.
Proof. by rewrite merge_sort_Permutation, elem_of_remove_dups. Qed.

Lemma remove_dups_NoDup {A} `{EqDecision A} (l : list A) :
  NoDup l → remove_dups l = l.
Proof.
  induction 1 as [|x l Hx _ IH]; [done|]. simpl.
  destruct (decide_rel elem_of x l); [done|]. by rewrite IH.
Qed.

Lemma normalized_fixed ds :
  StronglySorted str_le ds → NoDup ds →
  merge_sort str_le (remove_dups ds) = ds.
Proof.
  intros Hs Hnd. rewrite (remove_dups_NoDup _ Hnd).
  apply (StronglySorted_unique str_le); [apply (StronglySorted_merge_sort _)|done|].
  apply merge_sort_Permutation.
Qed.

Lemma map_res_as_str ss : map_res as_str (VStr <$> ss) = Ok ss.
Proof.
  induction ss as [|s ss IH]; [done|].
  rewrite fmap_cons. cbn [map_res]. by rewrite IH.
Qed.

Lemma map_res_as_str_inv items strs :
  map_res as_str items = Ok strs → items = VStr <$> strs.
Proof.
  revert strs. induction items as [|v items IH]; intros strs.
  - by intros [= <-].
  - simpl. destruct v; try done. simpl.
    destruct (map_res as_str items) as [ss|]; [|done].
    intros [= <-]. simpl. f_equal. by apply IH.
Qed.

Lemma normalize_dates_inv dates dates' :
  normalize_dates dates = Ok dates' →
  ∃ strs, py_iter dates = Ok (VStr <$> strs) ∧
          dates' = str_list (merge_sort str_le (remove_dups strs)).
Proof.
  unfold normalize_dates. destruct (py_iter dates) as [items|]; [|done]. simpl.
  destruct (map_res as_str items) as [strs|] eqn:E; [|done]. simpl.
  intros [= <-]. exists strs. by rewrite (map_res_as_str_inv _ _ E).
Qed.

Lemma normalize_dates_fixed ds :
  StronglySorted str_le ds → NoDup ds →
  normalize_dates (str_list ds) = Ok (str_list ds).
Proof.
  intros Hs Hnd. unfold normalize_dates, str_list. cbn [py_iter].
  change (Ok (VStr <$> ds) ≫= ?f) with (f (VStr <$> ds)). cbv beta.
  rewrite map_res_as_str.
  change (Ok ds ≫= ?f) with (f ds). cbv beta.
  by rewrite normalized_fixed.
Qed.

Lemma existsb_is_str t ss : existsb (is_str t) (VStr <$> ss) = true ↔ t ∈ ss.
Proof.
  induction ss as [|s ss IH].
  - split; [done|]. by intros ?%elem_of_nil.
  - rewrite fmap_cons. cbn [existsb is_str].
    rewrite orb_true_iff, IH, elem_of_cons, String.eqb_eq. naive_solver.
Qed.

(** ** [add_today_if_missing] *)

Lemma today_str_eq w :
  today_str w = (Ok (DateMath.strftime (clock w (ticks w))), tick 1 w).
Proof. unfold today_str. by rewrite bind_utcnow. Qed.

Lemma strftime_nonempty n : DateMath.strftime n ≠ "".
Proof.
  unfold DateMath.strftime. destruct (DateMath.ord2ymd n) as [[y m] d].
  by destruct (pretty y).
Qed.

Lemma prefix_empty t : String.prefix t "" = true → t = "".
Proof. by destruct t. Qed.

Lemma strptime_char c : DateMath.strptime (String c "") = None.
Proof. done. Qed.

Lemma res_bind_ok {A B} (a : A) (f : A → res B) : Ok a ≫= f = f a.
Proof. done. Qed.

Lemma res_bind_raise {A B} e (f : A → res B) : Raise e ≫= f = Raise e.
Proof. done. Qed.

Lemma to_date_str s :
  to_date (VStr s) = of_option ValueError (DateMath.strptime s).
Proof. done. Qed.

Lemma map_res_to_date_inv ss ds :
  map_res to_date (VStr <$> ss) = Ok ds → valid_dates ss ds.
Proof.
  revert ds. induction ss as [|s ss IH]; intros ds.
  - intros [= <-]. constructor.
  - rewrite fmap_cons. cbn [map_res]. rewrite to_date_str.
    destruct (DateMath.strptime s) as [d|] eqn:E; cbn [of_option];
      [|by rewrite res_bind_raise].
    rewrite res_bind_ok.
    destruct (map_res to_date (VStr <$> ss)) as [ds'|]; [|done].
    intros [= <-]. constructor; [done|by apply IH].
Qed.

(** When the calculator returns, its argument was a list of valid dates. *)
Lemma calculate_streak_inv ss w r w' :
  ss ≠ [] → calculate_streak (str_list ss) w = (Ok r, w') →
  ∃ ds, valid_dates ss ds.
Proof.
  intros Hne. unfold calculate_streak, str_list.
  assert (py_truthy (VList (VStr <$> ss)) = true) as -> by (by destruct ss).
  cbn [negb py_iter]. rewrite bind_lift.
  destruct (map_res to_date (VStr <$> ss)) as [ds|] eqn:E; [|done].
  intros _. exists ds. by apply map_res_to_date_inv.
Qed.

Lemma valid_dates_elem ss ds s :
  valid_dates ss ds → s ∈ ss → is_Some (DateMath.strptime s).
Proof.
  induction 1 as [|s' d ss ds Hs _ IH]; [by intros ?%elem_of_nil|].
  intros [->|Hin]%elem_of_cons; [eauto|by apply IH].
Qed.

#[export] Instance VStr_inj : Inj eq eq VStr.
Proof. by intros s1 s2 [= ->]. Qed.

Lemma add_today_inv data w data' current best w' :
  add_today_if_missing data w = (Ok (data', current, best), w') →
  ∃ m strs longest,
    let t := DateMath.strftime (clock w (ticks w)) in
    let ds := merge_sort str_le (remove_dups strs) in
    data = VDict m ∧ t ∈ strs ∧
    calculate_streak (str_list ds) (tick 1 w) = (Ok (current, longest), w') ∧
    py_max (default (VInt 0) (m !! "longest_streak")) longest = Ok best ∧
    data' = VDict (<["longest_streak" := best]> (<["dates" := str_list ds]> m)).
Proof.
  unfold add_today_if_missing. rewrite (bind_ok _ _ _ _ _ (today_str_eq w)).
  set (t := DateMath.strftime (clock w (ticks w))).
  intros H.
  apply bind_inv in H as (dates & w1 & [Hget ->]%lift_inv & H).
  apply bind_inv in H as (present & w1 & [Hcont ->]%lift_inv & H).
  apply bind_inv in H as (dates1 & w1 & [Happ ->]%lift_inv & H).
  apply bind_inv in H as (dates2 & w1 & [Hnorm ->]%lift_inv & H).
  apply bind_inv in H as (data1 & w1 & [Hset ->]%lift_inv & H).
  apply bind_inv in H as ([cur longest] & w1 & Hcalc & H).
  apply bind_inv in H as (prev & w2 & [Hprev ->]%lift_inv & H).
  apply bind_inv in H as (best' & w2 & [Hmax ->]%lift_inv & H).
  apply bind_inv in H as (data2 & w2 & [Hset2 ->]%lift_inv & H).
  injection H as <- <- <- <-.
  destruct data as [| | | | | |m]; try done.
  injection Hget as <-. injection Hset as <-.
  injection Hprev as <-. injection Hset2 as <-.
  apply normalize_dates_inv in Hnorm as (strs & Hiter & ->).
  exists m, strs, longest. cbv zeta.
  assert (t ∈ strs) as Ht.
  { destruct (m !! "dates") as [[| | | | s|l|md]|] eqn:Ed; cbn [default] in *;
      try done.
    - (* a str: its characters are no dates *)
      injection Hcont as <-. exfalso.
      destruct (substring_of t s) eqn:Esub; [|done].
      injection Happ as <-. cbn [py_iter] in Hiter. injection Hiter as Hiter.
      apply (inj (fmap VStr)) in Hiter.
      destruct s as [|c s].
      + cbn in Esub. rewrite orb_false_r in Esub.
        by apply prefix_empty, strftime_nonempty in Esub.
      + assert (String c "" ∈ strs) as Hin.
        { rewrite <- Hiter. unfold chars. cbn. left. }
        assert (merge_sort str_le (remove_dups strs) ≠ []) as Hne.
        { intros E. apply elem_of_normalized in Hin. rewrite E in Hin.
          by apply elem_of_nil in Hin. }
        destruct (calculate_streak_inv _ _ _ _ Hne Hcalc) as [ds Hv].
        apply elem_of_normalized in Hin.
        destruct (valid_dates_elem _ _ _ Hv Hin) as [d Hd].
        by rewrite strptime_char in Hd.
    - (* a list *)
      injection Hcont as <-.
      destruct (existsb (is_str t) l) eqn:Eex.
      + injection Happ as <-. cbn [py_iter] in Hiter. injection Hiter as ->.
        by apply existsb_is_str.
      + injection Happ as <-. cbn [py_iter] in Hiter. injection Hiter as Hiter.
        assert (VStr t ∈ VStr <$> strs) as Hin.
        { rewrite <- Hiter. apply elem_of_app. right. left. }
        apply list_elem_of_fmap in Hin as (s & [= ->] & Hs). done.
    - (* a dict: its keys *)
      injection Hcont as <-. destruct (bool_decide _) eqn:Eb; [|done].
      injection Happ as <-. cbn [py_iter] in Hiter. injection Hiter as Hiter.
      apply (inj (fmap VStr)) in Hiter. rewrite <- Hiter.
      apply bool_decide_eq_true in Eb as [v Hv].
      apply list_elem_of_fmap. exists (t, v). split; [done|].
      by apply elem_of_map_to_list.
    - (* no key: the default list *)
      injection Hcont as <-. cbn in Happ. injection Happ as <-.
      cbn [py_iter] in Hiter. injection Hiter as Hiter.
      destruct strs as [|s [|]]; try done. injection Hiter as ->. left. }
  repeat split; try done.
  by rewrite lookup_insert_ne in Hmax.
Qed.

(** ** The run as a whole *)

Lemma clock_only_world {A} n (c : M A) w r w' :
  clock_only n c → c w = (r, w') → ∃ k, (k ≤ n)%nat ∧ w' = tick k w.
Proof.
  intros Hc E. destruct (Hc w) as (k & Hk & Hs & _).
  rewrite E in Hs. eauto.
Qed.

(** The outcome of a command that only reads the clock is the same in any
    world with the same clock. *)
Lemma clock_only_frame {A} n (c : M A) w w2 r k :
  clock_only n c → c w = (r, tick k w) →
  clock w2 = clock w → ticks w2 = ticks w →
  c w2 = (r, tick k w2).
Proof.
  intros Hc E Hclk Htk. destruct (Hc w) as (k' & Hk & Hs & Hag).
  rewrite E in Hs. simpl in Hs.
  assert (k' = k) as ->.
  { apply (f_equal ticks) in Hs. simpl in Hs. lia. }
  destruct (Hag w2) as [Hr Hw]; [intros i _; by rewrite Hclk, Htk|].
  rewrite E in Hr. simpl in Hr. destruct (c w2). simpl in *. by subst.
Qed.

Lemma load_data_eq w :
  load_data w = (Ok (loaded w), tick (readings_of_load w) w).
Proof.
  unfold load_data, loaded, readings_of_load.
  destruct (data_file w) as [[raw|v]|];
    rewrite ?(bind_ok _ _ _ _ _ (today_str_eq w)); try done.
  by rewrite tick_0.
Qed.

Lemma write_if_changed_eq new_content w :
  let changed :=
    negb (String.eqb (strip (default "" (streak_md w))) (strip new_content)) in
  write_if_changed new_content w =
    (Ok changed,
     if changed then
       World (data_file w) (Some new_content) (stdout w) (clock w) (ticks w)
     else w).
Proof.
  unfold write_if_changed, read_file, write_file, mbind, M_bind.
  destruct (streak_md w) as [old|]; cbn [default];
    by destruct (negb _).
Qed.

Lemma print_eq line w :
  print line w =
    (Ok (), World (data_file w) (streak_md w) (stdout w ++ [line]) (clock w)
              (ticks w)).
Proof. done. Qed.

(** What is left of [main] once the report text [new_md] is there. *)
Lemma main_tail py_repr m l current longest new_md w :
  m !! "dates" = Some (VList l) →
  let changed :=
    negb (String.eqb (strip (default "" (streak_md w))) (strip new_md)) in
  (changed ← write_if_changed new_md;
   _ ← print (if changed : bool then "✅ STREAK.md updated."
              else "ℹ️ No changes in streak data (already up-to-date).");
   dates ← lift (py_get (VDict m) "dates" (VList []));
   total_days ← lift (py_len dates);
   print ("Current streak: " +:+ pretty current +:+ ", Longest streak: "
          +:+ py_format py_repr longest +:+ ", Total days: "
          +:+ pretty total_days)) w
  = (Ok (),
     World (data_file w) (if changed then Some new_md else streak_md w)
       (stdout w ++ [changed_message changed;
                     summary_line py_repr current longest
                       (Z.of_nat (length l))])
       (clock w) (ticks w)).
Proof.
  intros Hl changed.
  rewrite (bind_ok _ _ _ _ _ (write_if_changed_eq new_md w)).
  fold changed. erewrite bind_ok by apply print_eq.
  cbn [py_get]. rewrite Hl, bind_lift. cbn [py_len]. rewrite bind_lift.
  rewrite print_eq. unfold changed_message, summary_line.
  destruct changed; cbn [data_file streak_md stdout clock ticks];
    by rewrite <- app_assoc.
Qed.

(** The world a run ends in, from the world [w] in which the report text
    [new_md] was rendered. *)
Lemma main_run py_repr w m l current longest wb new_md wd :
  add_today_if_missing (loaded w) (tick (readings_of_load w) w)
    = (Ok (VDict m, current, longest), wb) →
  m !! "dates" = Some (VList l) →
  render_streak_md py_repr (VDict m) current longest (saved (VDict m) wb)
    = (Ok new_md, wd) →
  main py_repr w =
    (Ok (), finished py_repr current longest (Z.of_nat (length l)) new_md wd).
Proof.
  intros Hadd Hl Hrender. unfold main.
  rewrite (bind_ok _ _ _ _ _ (load_data_eq w)).
  rewrite (bind_ok _ _ _ _ _ Hadd).
  erewrite bind_ok by reflexivity.
  change (snd (save_data (VDict m) wb)) with (saved (VDict m) wb).
  rewrite (bind_ok _ _ _ _ _ Hrender).
  by rewrite (main_tail py_repr m l).
Qed.

Lemma lookup_dates (m0 : gmap string pyval) dates best :
  (<["longest_streak" := best]> (<["dates" := dates]> m0)) !! "dates"
  = Some dates.
Proof. rewrite lookup_insert_ne by done. apply lookup_insert_eq. Qed.

Lemma lookup_longest (m0 : gmap string pyval) dates best :
  (<["longest_streak" := best]> (<["dates" := dates]> m0))
    !! "longest_streak" = Some best.
Proof. apply lookup_insert_eq. Qed.

Lemma main_inv py_repr w w' :
  main py_repr w = (Ok (), w') →
  ∃ m0 strs current observed best wb new_md wd,
    let wa := tick (readings_of_load w) w in
    let ds := merge_sort str_le (remove_dups strs) in
    let m := <["longest_streak" := best]> (<["dates" := str_list ds]> m0) in
    loaded w = VDict m0 ∧
    DateMath.strftime (clock wa (ticks wa)) ∈ strs ∧
    calculate_streak (str_list ds) (tick 1 wa) = (Ok (current, observed), wb) ∧
    py_max (default (VInt 0) (m0 !! "longest_streak")) observed = Ok best ∧
    add_today_if_missing (loaded w) wa = (Ok (VDict m, current, best), wb) ∧
    render_streak_md py_repr (VDict m) current best (saved (VDict m) wb)
      = (Ok new_md, wd) ∧
    w' = finished py_repr current best (Z.of_nat (length ds)) new_md wd.
Proof.
  intros H. pose proof H as H0. unfold main in H.
  rewrite (bind_ok _ _ _ _ _ (load_data_eq w)) in H.
  apply bind_inv in H as ([[data current] best] & wb & Hadd & H).
  apply bind_inv in H as ([] & wc & Hsave & H).
  apply bind_inv in H as (new_md & wd & Hrender & _).
  injection Hsave as <-.
  destruct (add_today_inv _ _ _ _ _ _ Hadd)
    as (m0 & strs & observed & Hload & Ht & Hcalc & Hmax & ->).
  exists m0, strs, current, observed, best, wb, new_md, wd. cbv zeta.
  repeat (split; [done|]).
  rewrite (main_run _ _ _ _ _ _ _ _ _ Hadd (lookup_dates _ _ _) Hrender) in H0.
  injection H0 as <-. unfold str_list. by rewrite length_fmap.
Qed.

Lemma render_world py_repr data current longest w r w' :
  render_streak_md py_repr data current longest w = (r, w') →
  ∃ k, w' = tick k w.
Proof.
  intros H.
  destruct (clock_only_world _ _ _ _ _ (clock_only_render _ _ _ _) H)
    as (k & _ & ->). eauto.
Qed.

Lemma add_today_world data w r w' :
  add_today_if_missing data w = (r, w') → ∃ k, w' = tick k w.
Proof.
  intros H.
  destruct (clock_only_world _ _ _ _ _ (clock_only_add_today _) H)
    as (k & _ & ->). eauto.
Qed.

(** Claim C7.  A run that completes has written the record file, whatever
    the report file held before and so whether or not the report was
    rewritten; the [dates] it has written are a list of [str] in ascending
    order, without duplicates, one of which is the date that
    [add_today_if_missing] read from the clock. *)
Theorem record_always_written py_repr w w' :
  main py_repr w = (Ok (), w') →
  ∃ m ds,
    data_file w' = Some (Document (VDict m)) ∧
    m !! "dates" = Some (str_list ds) ∧
    StronglySorted str_le ds ∧ NoDup ds ∧
    DateMath.strftime (clock w (ticks w + readings_of_load w)%nat) ∈ ds ∧
    ∀ report, ∃ w'',
      main py_repr (with_report report w) = (Ok (), w'') ∧
      data_file w'' = Some (Document (VDict m)).
Proof.
  intros H.
  destruct (main_inv _ _ _ H)
    as (m0 & strs & current & observed & best & wb & new_md & wd & Hmain).
  cbv zeta in Hmain.
  destruct Hmain as (Hload & Ht & Hcalc & Hmax & Hadd & Hrender & ->).
  set (ds := merge_sort str_le (remove_dups strs)) in *.
  set (m := <["longest_streak" := best]> (<["dates" := str_list ds]> m0)) in *.
  exists m, ds.
  destruct (render_world _ _ _ _ _ _ _ Hrender) as [kr ->].
  destruct (add_today_world _ _ _ _ Hadd) as [ka ->].
  split; [done|]. split; [apply lookup_dates|].
  split; [apply normalized_sorted|]. split; [apply normalized_NoDup|].
  split; [by apply elem_of_normalized|].
  intros report.
  eexists. split; [|shelve].
  eapply (main_run py_repr (with_report report w) m).
  - apply (clock_only_frame _ _ _ _ _ _ (clock_only_add_today _) Hadd); done.
  - apply lookup_dates.
  - apply (clock_only_frame _ _ _ _ _ _ (clock_only_render _ _ _ _) Hrender);
      done.
  Unshelve. done.
Qed.

Lemma prior_longest_loaded w p :
  prior_longest w = Some p →
  ∃ m0, loaded w = VDict m0 ∧ default (VInt 0) (m0 !! "longest_streak") = VInt p.
Proof.
  unfold prior_longest, loaded.
  destruct (data_file w) as [[raw|v]|].
  - intros [= <-]. eexists. split; [done|].
    rewrite lookup_insert_ne by done. by rewrite lookup_insert_eq.
  - destruct v as [| | | | | |m0]; try done.
    exists m0. split; [done|].
    destruct (m0 !! "longest_streak") as [[]|]; naive_solver.
  - intros [= <-]. eexists. split; [done|].
    rewrite lookup_insert_ne by done. by rewrite lookup_insert_eq.
Qed.

Lemma py_max_int p observed best :
  py_max (VInt p) observed = Ok best → best = VInt (Z.max p observed).
Proof.
  unfold py_max. cbn. destruct (Z.ltb_spec p observed); intros [= <-]; f_equal; lia.
Qed.

Lemma prior_longest_tick k w : prior_longest (tick k w) = prior_longest w.
Proof. done. Qed.

(** Claim C6.  From a stored [longest_streak] [p] (an [int], or none yet)
    every run, whether it completes or raises, leaves a stored value [p']
    with [p <= p']; a run that completes leaves the maximum of [p] and the
    longest streak the calculator has just observed on the dates it
    stored. *)
Theorem longest_streak_never_decreases py_repr w r w' p :
  main py_repr w = (r, w') → prior_longest w = Some p →
  ∃ p', prior_longest w' = Some p' ∧ p <= p' ∧
    (r = Ok () →
     ∃ ds current observed wa wb,
       stored_dates w' = Some (VStr <$> ds) ∧
       calculate_streak (str_list ds) wa = (Ok (current, observed), wb) ∧
       p' = Z.max p observed).
Proof.
  intros Hmain Hprior.
  destruct (prior_longest_loaded _ _ Hprior) as (m0 & Hload & Hprev).
  unfold main in Hmain.
  rewrite (bind_ok _ _ _ _ _ (load_data_eq w)) in Hmain.
  destruct (add_today_if_missing (loaded w) (tick (readings_of_load w) w))
    as [[[[data current] best]|e] wb] eqn:Hadd.
  - rewrite (bind_ok _ _ _ _ _ Hadd) in Hmain.
    destruct (add_today_inv _ _ _ _ _ _ Hadd)
      as (m0' & strs & observed & Hload' & Ht & Hcalc & Hmax & ->).
    rewrite Hload in Hload'. injection Hload' as <-.
    rewrite Hprev in Hmax. apply py_max_int in Hmax as ->.
    erewrite bind_ok in Hmain by reflexivity.
    change (snd (save_data ?d wb)) with (saved d wb) in Hmain.
    set (ds := merge_sort str_le (remove_dups strs)) in *.
    set (m := <["longest_streak" := VInt (Z.max p observed)]>
                (<["dates" := str_list ds]> m0)) in *.
    exists (Z.max p observed).
    assert (∀ wd, data_file wd = Some (Document (VDict m)) →
              prior_longest wd = Some (Z.max p observed)) as Hfinal.
    { intros wd Hd. unfold prior_longest. rewrite Hd.
      unfold m. by rewrite lookup_longest. }
    destruct (render_streak_md py_repr (VDict m) current
                (VInt (Z.max p observed)) (saved (VDict m) wb))
      as [[new_md|e] wd] eqn:Hrender.
    + rewrite (bind_ok _ _ _ _ _ Hrender) in Hmain.
      rewrite (main_tail py_repr m _ _ _ _ _ (lookup_dates _ _ _)) in Hmain.
      injection Hmain as <- <-.
      destruct (render_world _ _ _ _ _ _ _ Hrender) as [k ->].
      split; [by apply Hfinal|]. split; [lia|]. intros _.
      exists ds, current, observed, (tick 1 (tick (readings_of_load w) w)), wb.
      split; [|done].
      unfold stored_dates. cbn [data_file tick saved].
      unfold m. by rewrite lookup_dates.
    + rewrite (bind_raise _ _ _ _ _ Hrender) in Hmain.
      injection Hmain as <- <-.
      destruct (render_world _ _ _ _ _ _ _ Hrender) as [k ->].
      split; [by apply Hfinal|]. split; [lia|]. done.
  - rewrite (bind_raise _ _ _ _ _ Hadd) in Hmain. injection Hmain as <- <-.
    destruct (add_today_world _ _ _ _ Hadd) as [k ->].
    exists p. rewrite !prior_longest_tick. split; [done|]. split; [lia|]. done.
Qed.

(** ** Running twice on the same day *)






(** ** Loading the record *)

Lemma load_data_never_raises w : ∃ data w', load_data w = (Ok data, w').
Proof. rewrite load_data_eq. eauto. Qed.

Lemma load_data_fresh w :
  data_file w = None ∨ (∃ raw, data_file w = Some (Corrupt raw)) →
  load_data w =
    (Ok (fresh_record (DateMath.strftime (clock w (ticks w)))), tick 1 w).
Proof.
  intros H. rewrite load_data_eq. unfold loaded, readings_of_load.
  by destruct H as [->|[raw ->]].
Qed.

Lemma map_res_to_date_fails ss s :
  s ∈ ss → DateMath.strptime s = None →
  map_res to_date (VStr <$> ss) = Raise ValueError.
Proof.
  intros Hin Hs. induction ss as [|s' ss IH]; [by apply elem_of_nil in Hin|].
  rewrite fmap_cons. cbn [map_res]. rewrite to_date_str.
  apply elem_of_cons in Hin as [<-|Hin].
  - by rewrite Hs.
  - rewrite (IH Hin). by destruct (DateMath.strptime s').
Qed.

Lemma calculate_streak_fails ss s w :
  s ∈ ss → DateMath.strptime s = None →
  calculate_streak (str_list ss) w = (Raise ValueError, w).
Proof.
  intros Hin Hs. unfold calculate_streak, str_list.
  assert (py_truthy (VList (VStr <$> ss)) = true) as ->.
  { destruct ss; [by apply elem_of_nil in Hin|done]. }
  cbn [negb py_iter]. rewrite bind_lift.
  by rewrite (map_res_to_date_fails _ _ Hin Hs).
Qed.

(** Claim C1, which the code breaks.  A record file that is valid JSON but
    holds no valid record is not replaced by a fresh record: [load_data]
    returns the decoded value as it is, the text "yesterday" reaches
    [strptime], and the [ValueError] ends the run before anything is
    saved.  This is so whatever the clock, the report and the output so
    far are. *)
Theorem malformed_record_aborts_run py_repr report out clk n :
  let w := World (Some (Document bad_record)) report out clk n in
  load_data w = (Ok bad_record, w) ∧
  fst (main py_repr w) = Raise ValueError ∧
  data_file (snd (main py_repr w)) = Some (Document bad_record).
Proof.
  intros w. split; [done|].
  assert (main py_repr w = (Raise ValueError, tick 1 w)) as ->; [|done].
  unfold main. rewrite (bind_ok _ _ _ _ _ (load_data_eq w)).
  change (loaded w) with bad_record.
  change (tick (readings_of_load w) w) with (tick 0 w). rewrite tick_0.
  apply bind_raise. unfold add_today_if_missing.
  rewrite (bind_ok _ _ _ _ _ (today_str_eq w)).
  set (t := DateMath.strftime (clock w (ticks w))).
  change (py_get bad_record "dates" (VList []))
    with (Ok (str_list ["yesterday"])).
  rewrite bind_lift.
  change (py_contains (str_list ["yesterday"]) t)
    with (Ok (existsb (is_str t) [VStr "yesterday"])).
  rewrite bind_lift.
  assert (∃ strs, "yesterday" ∈ strs ∧
            (if existsb (is_str t) [VStr "yesterday"]
             then Ok (str_list ["yesterday"])
             else py_append (str_list ["yesterday"]) (VStr t))
            = Ok (str_list strs)) as (strs & Hin & ->).
  { destruct (existsb _ _).
    - exists ["yesterday"]. split; [left|done].
    - exists ["yesterday"; t]. split; [left|done]. }
  rewrite bind_lift. unfold normalize_dates, str_list at 1. cbn [py_iter].
  rewrite res_bind_ok, map_res_as_str, res_bind_ok, bind_lift.
  change (py_setitem bad_record "dates" ?v)
    with (Ok (VDict (<["dates" := v]> (<["dates" := str_list ["yesterday"]]> ∅)))).
  rewrite bind_lift.
  apply bind_raise.
  apply (calculate_streak_fails _ "yesterday"); [|done].
  by apply elem_of_normalized.
Qed.


Lemma differ_by_eqb (a b : option string) :
  match a, b with
  | Some x, Some y => String.eqb x y
  | _, _ => true
  end = false → a ≠ b.
Proof.
  intros Hd ->. destruct b; [rewrite String.eqb_refl in Hd|]; discriminate.
Qed.

(** Claim C3 does not hold as it stands: the clock is read again at every
    use.  Two runs start from the same files at the same first reading of
    the clock, 2024-01-03; in the second run midnight passes before the
    later readings.  Both complete, and their outputs differ. *)
Lemma midnight_run_differs :
  let w1 := world_of (Some (Document three_days)) None noon in
  let w2 := world_of (Some (Document three_days)) None midnight in
  outputs w1 = outputs w2 ∧
  clock w1 (ticks w1) = clock w2 (ticks w2) ∧
  fst (main repr_sample w1) = Ok () ∧
  fst (main repr_sample w2) = Ok () ∧
  outputs (snd (main repr_sample w1)) ≠ outputs (snd (main repr_sample w2)).
Proof.
  cbv zeta. split; [done|]. split; [done|].
  split; [by vm_compute|]. split; [by vm_compute|].
  intros H.
  apply (differ_by_eqb
           (streak_md (snd (main repr_sample
              (world_of (Some (Document three_days)) None noon))))
           (streak_md (snd (main repr_sample
              (world_of (Some (Document three_days)) None midnight))))).
  - vm_compute. reflexivity.
  - exact (f_equal (fun o => o.1.2) H).
Qed.

(** ** Rounding to nearest, ties to even *)

Lemma mul_le_cancel a b p : 0 < p → a * p <= b * p → a <= b.
Proof. intros Hp H. by apply (Z.mul_le_mono_pos_r a b p). Qed.

Lemma mul_lt_cancel a b p : 0 < p → a * p < b * p → a < b.
Proof. intros Hp H. by apply (Z.mul_lt_mono_pos_r p a b). Qed.

Section Rne.
Variables num den : Z.
Hypothesis Hnum : 0 <= num.
Hypothesis Hden : 0 < den.

(** The result is within half a unit of the quotient, and even whenever the
    quotient lies half-way between two integers. *)
Lemma rne_spec :
  let r := rne num den in
  0 <= r ∧
  2 * Z.abs (r * den - num) <= den ∧
  (2 * Z.abs (r * den - num) = den → Z.even r = true).
Proof.
  unfold rne.
  pose proof (Z.div_mod num den ltac:(lia)) as Hdm.
  pose proof (Z.mod_pos_bound num den Hden) as Hr.
  pose proof (Z.div_pos num den Hnum Hden) as Hq.
  set (q := num / den) in *. set (r := num mod den) in *.
  destruct (Z.ltb_spec (2 * r) den) as [H1|H1].
  - cbv zeta. split; [lia|]. split; [lia|]. intros; lia.
  - destruct (Z.ltb_spec den (2 * r)) as [H2|H2].
    + cbv zeta. split; [lia|]. split; [lia|]. intros; lia.
    + destruct (Z.even q) eqn:Eq.
      * cbv zeta. split; [lia|]. split; [lia|]. done.
      * cbv zeta. split; [lia|]. split; [lia|]. intros _.
        rewrite Z.even_add, Eq. done.
Qed.

End Rne.

(** Rounding is monotone in the rational that is rounded. *)
Lemma rne_mono n1 d1 n2 d2 :
  0 <= n1 → 0 < d1 → 0 <= n2 → 0 < d2 →
  n1 * d2 <= n2 * d1 → rne n1 d1 <= rne n2 d2.
Proof.
  intros Hn1 Hd1 Hn2 Hd2 Hle.
  destruct (rne_spec n1 d1 Hn1 Hd1) as (Hp1 & Hb1 & He1).
  destruct (rne_spec n2 d2 Hn2 Hd2) as (Hp2 & Hb2 & He2).
  set (r1 := rne n1 d1) in *. set (r2 := rne n2 d2) in *.
  destruct (Z.le_gt_cases r1 r2) as [|Hgt]; [done|]. exfalso.
  (* r2 + 1 <= r1: both quotients are r2 + 1/2 = r1 - 1/2 *)
  assert (2 * (r1 * d1 - n1) <= d1) as A1 by lia.
  assert (2 * (n2 - r2 * d2) <= d2) as A2 by lia.
  assert (0 < d1 * d2) as HD by (apply Z.mul_pos_pos; lia).
  pose proof (Z.mul_le_mono_nonneg_r _ _ d2 ltac:(lia) A1) as B1.
  pose proof (Z.mul_le_mono_nonneg_r _ _ d1 ltac:(lia) A2) as B2.
  assert (r1 * (d1 * d2) <= (r2 + 1) * (d1 * d2)) as HE by lia.
  apply mul_le_cancel in HE; [|done].
  assert (r1 = r2 + 1) as E by lia.
  assert (2 * (r1 * d1 - n1) = d1) as T1.
  { apply (Z.mul_reg_r _ _ d2); lia. }
  assert (2 * (n2 - r2 * d2) = d2) as T2.
  { apply (Z.mul_reg_r _ _ d1); lia. }
  assert (Z.even r1 = true) as Ev1 by (apply He1; lia).
  assert (Z.even r2 = true) as Ev2 by (apply He2; lia).
  rewrite E, Z.even_add, Ev2 in Ev1. done.
Qed.

Lemma rne_exact j den : 0 <= j → 0 < den → rne (j * den) den = j.
Proof.
  intros Hj Hden. unfold rne.
  rewrite Z.div_mul by lia. rewrite Z.mod_mul by lia.
  destruct (Z.ltb_spec (2 * 0) den); [done|lia].
Qed.

Lemma rne_le n d j : 0 <= n → 0 < d → 0 <= j → n <= j * d → rne n d <= j.
Proof.
  intros Hn Hd Hj Hle. rewrite <- (rne_exact j 1 Hj) by lia.
  apply rne_mono; lia.
Qed.

Lemma rne_ge n d j : 0 <= n → 0 < d → 0 <= j → j * d <= n → j <= rne n d.
Proof.
  intros Hn Hd Hj Hle. rewrite <- (rne_exact j 1 Hj) at 1 by lia.
  apply rne_mono; lia.
Qed.

(** ** Rounding to a float *)

Lemma SCALE_pos : 0 < SCALE.
Proof. done. Qed.

(** Where the unit in the last place lies. *)
Lemma round_pos_shape n d :
  0 <= n → 0 < d →
  let sh := Z.max (Z.log2 (n * SCALE / d) - 52) 0 in
  0 <= sh ∧ 0 < 2 ^ sh ∧
  n * SCALE < d * (2 ^ sh * 2 ^ 53) ∧
  (0 < sh → d * (2 ^ sh * 2 ^ 52) <= n * SCALE).
Proof.
  intros Hn Hd sh.
  assert (0 <= n * SCALE) as Hns by (pose proof SCALE_pos; lia).
  pose proof (Z.div_pos _ _ Hns Hd) as Hq.
  pose proof (Z.mul_div_le (n * SCALE) d Hd) as Hlo.
  pose proof (Z.mul_succ_div_gt (n * SCALE) d Hd) as Hhi.
  set (q := n * SCALE / d) in *.
  assert (0 <= sh) as Hsh by lia.
  pose proof (Z.pow_pos_nonneg 2 sh ltac:(lia) Hsh) as Hp.
  split; [done|]. split; [done|].
  destruct (Z.eq_dec q 0) as [E0|Hq0].
  { rewrite E0 in *. replace sh with 0 in * by (subst sh; rewrite E0; done).
    split; [|intros; lia]. change (2 ^ 0) with 1. lia. }
  destruct (Z.log2_spec q ltac:(lia)) as [Hl1 Hl2].
  pose proof (Z.log2_nonneg q) as HL.
  destruct (Z.le_gt_cases (Z.log2 q) 52) as [Hsmall|Hbig].
  - replace sh with 0 in * by lia. split; [|intros; lia].
    assert (2 ^ Z.succ (Z.log2 q) <= 2 ^ 53) by (apply Z.pow_le_mono_r; lia).
    assert (d * Z.succ q <= d * 2 ^ 53)
      by (apply Z.mul_le_mono_nonneg_l; lia).
    change (2 ^ 0) with 1. lia.
  - assert (Z.log2 q = sh + 52) as EL by lia.
    rewrite EL in *.
    assert (2 ^ (sh + 52) = 2 ^ sh * 2 ^ 52) as E1 by (apply Z.pow_add_r; lia).
    assert (2 ^ Z.succ (sh + 52) = 2 ^ sh * 2 ^ 53) as E2.
    { replace (Z.succ (sh + 52)) with (sh + 53) by lia. apply Z.pow_add_r; lia. }
    rewrite E1 in Hl1. rewrite E2 in Hl2.
    assert (d * (2 ^ sh * 2 ^ 52) <= d * q)
      by (apply Z.mul_le_mono_nonneg_l; lia).
    assert (d * Z.succ q <= d * (2 ^ sh * 2 ^ 53))
      by (apply Z.mul_le_mono_nonneg_l; lia).
    split; [lia|]. intros _. lia.
Qed.

Lemma round_pos_nonneg n d : 0 <= n → 0 < d → 0 <= round_pos n d.
Proof.
  intros Hn Hd. unfold round_pos.
  destruct (round_pos_shape n d Hn Hd) as (Hsh & Hp & _).
  cbv zeta in *. set (sh := Z.max _ 0) in *.
  destruct (rne_spec (n * SCALE) (d * 2 ^ sh)) as [Hr _];
    [pose proof SCALE_pos; lia|lia|]. lia.
Qed.

Lemma div_cross_mono a b c d :
  0 <= a → 0 < b → 0 < d → a * d <= c * b → a / b <= c / d.
Proof.
  intros Ha Hb Hd Hle. apply Z.div_le_lower_bound; [done|].
  pose proof (Z.mul_div_le a b Hb) as Hq.
  assert (b * (a / b) * d <= a * d) by (apply Z.mul_le_mono_nonneg_r; lia).
  apply (mul_le_cancel _ _ b); [done|lia].
Qed.

(** Rounding is monotone. *)
Lemma round_pos_mono n1 d1 n2 d2 :
  0 <= n1 → 0 < d1 → 0 <= n2 → 0 < d2 →
  n1 * d2 <= n2 * d1 → round_pos n1 d1 <= round_pos n2 d2.
Proof.
  intros Hn1 Hd1 Hn2 Hd2 Hle. pose proof SCALE_pos as HS.
  destruct (round_pos_shape n1 d1 Hn1 Hd1) as (Hs1 & Hp1 & Hu1 & Hl1).
  destruct (round_pos_shape n2 d2 Hn2 Hd2) as (Hs2 & Hp2 & Hu2 & Hl2).
  unfold round_pos. cbv zeta in *.
  assert (n1 * SCALE / d1 <= n2 * SCALE / d2) as Hq.
  { apply div_cross_mono; [lia|done|done|].
    replace (n1 * SCALE * d2) with (n1 * d2 * SCALE) by ring.
    replace (n2 * SCALE * d1) with (n2 * d1 * SCALE) by ring.
    apply Z.mul_le_mono_nonneg_r; [lia|done]. }
  assert (0 <= n1 * SCALE) as Hns1 by lia.
  assert (0 <= n2 * SCALE) as Hns2 by lia.
  assert (0 <= n1 * SCALE / d1) as Hq0 by (apply Z.div_pos; lia).
  pose proof (Z.log2_le_mono _ _ Hq) as HL.
  set (sh1 := Z.max (Z.log2 (n1 * SCALE / d1) - 52) 0) in *.
  set (sh2 := Z.max (Z.log2 (n2 * SCALE / d2) - 52) 0) in *.
  assert (sh1 <= sh2) as Hsh by lia.
  destruct (Z.eq_dec sh1 sh2) as [E|Hne].
  - rewrite <- E in *. apply Z.mul_le_mono_nonneg_r; [lia|].
    apply rne_mono; try lia.
    replace (n1 * SCALE * (d2 * 2 ^ sh1))
      with (n1 * d2 * (SCALE * 2 ^ sh1)) by ring.
    replace (n2 * SCALE * (d1 * 2 ^ sh1))
      with (n2 * d1 * (SCALE * 2 ^ sh1)) by ring.
    apply Z.mul_le_mono_nonneg_r; [lia|done].
  - assert (0 < sh2) as Hpos by lia. specialize (Hl2 Hpos).
    set (T := 2 ^ sh2 * 2 ^ 52) in *.
    assert (2 ^ sh2 = 2 ^ sh1 * 2 ^ (sh2 - sh1)) as Esplit.
    { rewrite <- Z.pow_add_r by lia. f_equal. lia. }
    assert (2 <= 2 ^ (sh2 - sh1)) as Hgap.
    { change 2 with (2 ^ 1) at 1. apply Z.pow_le_mono_r; lia. }
    assert (2 ^ sh1 * 2 ^ 53 <= T) as HT.
    { assert (2 ^ sh1 * 2 <= 2 ^ sh1 * 2 ^ (sh2 - sh1))
        by (apply Z.mul_le_mono_nonneg_l; lia).
      unfold T. rewrite Esplit. change (2 ^ 53) with (2 * 2 ^ 52). lia. }
    transitivity T.
    + set (j := 2 ^ (sh2 - sh1) * 2 ^ 52).
      assert (T = j * 2 ^ sh1) as ET by (unfold T, j; rewrite Esplit; ring).
      rewrite ET. apply Z.mul_le_mono_nonneg_r; [lia|].
      apply rne_le; [lia|lia|unfold j; lia|].
      replace (j * (d1 * 2 ^ sh1)) with (d1 * T) by (rewrite ET; ring).
      assert (d1 * (2 ^ sh1 * 2 ^ 53) <= d1 * T)
        by (apply Z.mul_le_mono_nonneg_l; lia).
      lia.
    + unfold T. rewrite (Z.mul_comm (2 ^ sh2)).
      apply Z.mul_le_mono_nonneg_r; [lia|].
      apply rne_ge; [lia|lia|lia|]. unfold T in Hl2. lia.
Qed.

(** The rounded value depends on the rational only. *)
Lemma round_pos_ratio n1 d1 n2 d2 :
  0 <= n1 → 0 < d1 → 0 <= n2 → 0 < d2 →
  n1 * d2 = n2 * d1 → round_pos n1 d1 = round_pos n2 d2.
Proof.
  intros. apply Z.le_antisymm; apply round_pos_mono; lia.
Qed.

(** An [int] below [2^53] is a float. *)
Lemma round_pos_int j : 0 < j < 2 ^ 53 → round_pos j 1 = j * SCALE.
Proof.
  intros Hj. unfold round_pos. rewrite Z.div_1_r, Z.mul_1_l.
  assert (Z.log2 (j * SCALE) = 1074 + Z.log2 j) as ->
    by (unfold SCALE; apply Z.log2_mul_pow2; lia).
  pose proof (Z.log2_nonneg j) as H0.
  assert (Z.log2 j < 53) as H1 by (apply Z.log2_lt_pow2; lia).
  replace (Z.max (1074 + Z.log2 j - 52) 0) with (Z.log2 j + 1022) by lia.
  set (sh := Z.log2 j + 1022).
  assert (SCALE = 2 ^ (52 - Z.log2 j) * 2 ^ sh) as ES.
  { unfold SCALE. rewrite <- Z.pow_add_r by lia. f_equal. lia. }
  assert (0 < 2 ^ sh) by (apply Z.pow_pos_nonneg; lia).
  assert (0 < 2 ^ (52 - Z.log2 j)) by (apply Z.pow_pos_nonneg; lia).
  rewrite ES at 1. rewrite Z.mul_assoc, rne_exact by lia.
  rewrite ES. ring.
Qed.

(** In the normal range the relative error is at most [2^-53]. *)
Lemma round_pos_error n d :
  0 <= n → 0 < d → d * 2 ^ 52 <= n * SCALE →
  2 ^ 53 * Z.abs (round_pos n d * d - n * SCALE) <= n * SCALE.
Proof.
  intros Hn Hd Hnormal. pose proof SCALE_pos as HS.
  unfold round_pos.
  assert (0 <= n * SCALE) as Hns by lia.
  pose proof (Z.mul_div_le (n * SCALE) d Hd) as Hlo.
  assert (2 ^ 52 <= n * SCALE / d) as Hq.
  { apply Z.div_le_lower_bound; lia. }
  set (q := n * SCALE / d) in *.
  assert (52 <= Z.log2 q) as HL.
  { change 52 with (Z.log2 (2 ^ 52)). by apply Z.log2_le_mono. }
  destruct (Z.log2_spec q ltac:(lia)) as [Hl1 _].
  replace (Z.max (Z.log2 q - 52) 0) with (Z.log2 q - 52) by lia.
  set (sh := Z.log2 q - 52) in *.
  assert (2 ^ Z.log2 q = 2 ^ sh * 2 ^ 52) as E.
  { rewrite <- Z.pow_add_r by lia. f_equal. lia. }
  assert (0 < 2 ^ sh) as Hp by (apply Z.pow_pos_nonneg; lia).
  destruct (rne_spec (n * SCALE) (d * 2 ^ sh)) as (Hr & Hb & _); [lia|lia|].
  set (r := rne (n * SCALE) (d * 2 ^ sh)) in *.
  replace (r * 2 ^ sh * d) with (r * (d * 2 ^ sh)) by ring.
  assert (d * (2 ^ sh * 2 ^ 52) <= d * q)
    by (apply Z.mul_le_mono_nonneg_l; lia).
  change (2 ^ 53) with (2 * 2 ^ 52). lia.
Qed.

(** ** The progress bar *)

Lemma SCALE_large : 2 ^ 100 <= SCALE.
Proof. by apply Z.leb_le. Qed.

(** [40 * (k / 40)] is [k] again in floating point. *)
Lemma fortieths_exact k :
  1 <= k <= 39 →
  round_pos (40 * round_pos k 40) SCALE / SCALE = k.
Proof.
  intros Hk.
  assert (forallb (fun k => round_pos (40 * round_pos k 40) SCALE / SCALE =? k)
            (seqZ 1 39) = true) as Hall by (vm_compute; reflexivity).
  rewrite forallb_forall in Hall. apply Z.eqb_eq, Hall.
  apply list_elem_of_In, elem_of_seqZ. lia.
Qed.

(** ** Arithmetic of the two roundings *)

(** A quotient [c / l] below one, rounded with relative error [2^-53]. *)
Lemma quotient_bounds S c l q :
  2 ^ 100 <= S → 1 <= c < l → l <= 2 ^ 46 → 0 <= q →
  2 ^ 53 * Z.abs (q * l - c * S) <= c * S →
  2 ^ 52 <= q < S.
Proof.
  intros HS Hc Hl Hq Herr.
  assert (1 * S <= c * S) as HcS by (apply Z.mul_le_mono_nonneg_r; lia).
  assert (c * S <= (l - 1) * S) as HcS' by (apply Z.mul_le_mono_nonneg_r; lia).
  assert (l * S <= 2 ^ 46 * S) as HlS by (apply Z.mul_le_mono_nonneg_r; lia).
  split.
  - destruct (Z.le_gt_cases (2 ^ 52) q) as [|Hsmall]; [done|]. exfalso.
    assert (q * l <= 2 ^ 52 * 2 ^ 46) as Hql by (apply Z.mul_le_mono_nonneg; lia).
    lia.
  - apply (mul_lt_cancel q S l); lia.
Qed.

(** Forty times that quotient, rounded again, when [40 * c / l] is not an
    integer: the two errors do not carry the product across an integer. *)
Lemma product_bounds S c l q y k :
  2 ^ 100 <= S → 1 <= c < l → l <= 2 ^ 46 → 0 <= q → 0 <= y →
  0 <= k <= 39 →
  k * l + 1 <= 40 * c <= (k + 1) * l - 1 →
  2 ^ 53 * Z.abs (q * l - c * S) <= c * S →
  2 ^ 53 * Z.abs (y - 40 * q) <= 40 * q →
  k * S <= 40 * q ∧ y < (k + 1) * S.
Proof.
  intros HS Hc Hl Hq Hy Hk Hkl Herr1 Herr2.
  assert (k * l <= 39 * 2 ^ 46) as Hkl' by (apply Z.mul_le_mono_nonneg; lia).
  assert ((k * l + 1) * S <= 40 * c * S) as H1
    by (apply Z.mul_le_mono_nonneg_r; lia).
  assert (40 * c * S <= ((k + 1) * l - 1) * S) as H2
    by (apply Z.mul_le_mono_nonneg_r; lia).
  assert (k * l * S <= 39 * 2 ^ 46 * S) as H3
    by (apply Z.mul_le_mono_nonneg_r; lia).
  assert (l * S <= 2 ^ 46 * S) as H4 by (apply Z.mul_le_mono_nonneg_r; lia).
  assert (0 <= k * l * S) as H5 by (repeat apply Z.mul_nonneg_nonneg; lia).
  split.
  - apply (mul_le_cancel _ _ l); [lia|]. lia.
  - assert (y * 2 ^ 53 * l <= 40 * q * (2 ^ 53 + 1) * l) as H6
      by (apply Z.mul_le_mono_nonneg_r; lia).
    apply (mul_lt_cancel _ _ l); [lia|]. lia.
Qed.

(** The quotient [c / l] of a streak by a longer one, and 40 times it. *)
Lemma ratio_exact c l :
  1 <= c < l → l <= 2 ^ 46 →
  let q := round_pos c l in
  let y := round_pos (40 * q) SCALE in
  0 < q < SCALE ∧ 0 <= y < 40 * SCALE ∧ y / SCALE = 40 * c / l.
Proof.
  intros Hc Hl q y. pose proof SCALE_large as HS.
  assert (0 < SCALE) as HS0 by lia.
  assert (1 * SCALE <= c * SCALE) as HcS
    by (apply Z.mul_le_mono_nonneg_r; lia).
  (* error of the division *)
  assert (2 ^ 53 * Z.abs (q * l - c * SCALE) <= c * SCALE) as E1.
  { apply round_pos_error; lia. }
  pose proof (round_pos_nonneg c l ltac:(lia) ltac:(lia)) as Hq0.
  fold q in Hq0.
  pose proof (quotient_bounds SCALE c l q HS Hc Hl Hq0 E1) as Hq.
  (* error of the multiplication *)
  pose proof (round_pos_nonneg (40 * q) SCALE ltac:(lia) HS0) as Hy0.
  fold y in Hy0.
  assert (2 ^ 53 * Z.abs (y - 40 * q) <= 40 * q) as E2.
  { assert (2 ^ 52 * SCALE <= 40 * q * SCALE) as Hnorm
      by (apply Z.mul_le_mono_nonneg_r; lia).
    pose proof (round_pos_error (40 * q) SCALE ltac:(lia) HS0 ltac:(lia))
      as E.
    fold y in E.
    replace (y * SCALE - 40 * q * SCALE) with ((y - 40 * q) * SCALE) in E
      by ring.
    rewrite Z.abs_mul, (Z.abs_eq SCALE), Z.mul_assoc in E by lia.
    by apply (mul_le_cancel _ _ SCALE). }
  (* the integer part *)
  pose proof (Z.div_mod (40 * c) l ltac:(lia)) as Hdm.
  pose proof (Z.mod_pos_bound (40 * c) l ltac:(lia)) as Hr.
  assert (0 <= 40 * c / l) as Hk0 by (apply Z.div_pos; lia).
  assert (40 * c / l < 40) as Hk1 by (apply Z.div_lt_upper_bound; lia).
  set (k := 40 * c / l) in *. set (r := (40 * c) mod l) in *.
  assert ((k + 1) * SCALE <= 40 * SCALE) as Htop
    by (apply Z.mul_le_mono_nonneg_r; lia).
  split; [lia|].
  destruct (Z.eq_dec r 0) as [Er|Hr0].
  - (* c / l = k / 40 *)
    assert (k ≠ 0) as Hk2 by (intros E; rewrite E in Hdm; lia).
    assert (q = round_pos k 40) as Eq by (apply round_pos_ratio; lia).
    pose proof (fortieths_exact k ltac:(lia)) as Hex.
    rewrite <- Eq in Hex. fold y in Hex.
    split; [|done]. split; [done|].
    pose proof (Z.mul_succ_div_gt y SCALE HS0) as Hgt.
    rewrite Hex in Hgt. lia.
  - destruct (product_bounds SCALE c l q y k) as [Hlow Hhigh]; try lia.
    assert (k * SCALE <= y) as Hlow'.
    { destruct (Z.eq_dec k 0) as [->|Hk2]; [lia|].
      rewrite <- (round_pos_int k) by lia.
      apply round_pos_mono; lia. }
    split; [lia|].
    symmetry. apply (Z.div_unique_pos y SCALE k (y - k * SCALE)); lia.
Qed.

(** ** The arithmetic of the progress bar *)

Lemma round_pos_one : round_pos 1 1 = SCALE.
Proof. rewrite round_pos_int by done. lia. Qed.

Lemma round_pos_huge : round_pos (2 ^ 1023) 1 = 2 ^ 1023 * SCALE.
Proof. apply Z.eqb_eq. vm_compute. reflexivity. Qed.

Lemma huge_below_overflow : 2 ^ 1023 * SCALE < OVERFLOW.
Proof. apply Z.ltb_lt. vm_compute. reflexivity. Qed.

Lemma of_rounded_pos k : 0 < k < OVERFLOW → of_rounded false k = FFin k.
Proof.
  intros Hk. unfold of_rounded.
  destruct (Z.leb_spec OVERFLOW k); [lia|].
  destruct (Z.eqb_spec k 0); [lia|done].
Qed.

Lemma div_pos a b :
  0 < a → 0 < b → div (FFin a) (FFin b) = of_rounded false (round_pos a b).
Proof.
  intros Ha Hb. unfold div, is_neg, is_zero, magnitude.
  destruct (Z.ltb_spec a 0); [lia|]. destruct (Z.ltb_spec b 0); [lia|].
  destruct (Z.eqb_spec a 0); [lia|].
  by rewrite !Z.abs_eq by lia.
Qed.

Lemma mul_pos a b :
  0 < a → 0 < b →
  mul (FFin a) (FFin b)
  = of_rounded false (round_pos (a * b) (SCALE * SCALE)).
Proof.
  intros Ha Hb. unfold mul, is_neg, is_zero, magnitude.
  destruct (Z.ltb_spec a 0); [lia|]. destruct (Z.ltb_spec b 0); [lia|].
  destruct (Z.eqb_spec a 0); [lia|]. destruct (Z.eqb_spec b 0); [lia|].
  by rewrite !Z.abs_eq by lia.
Qed.

(** [float(z)] of a positive [int] below [2^1023]. *)
Lemma of_int_pos z :
  0 < z < 2 ^ 1023 →
  of_int z = Some (FFin (round_pos z 1)) ∧
  SCALE <= round_pos z 1 <= 2 ^ 1023 * SCALE.
Proof.
  intros Hz.
  assert (SCALE <= round_pos z 1 <= 2 ^ 1023 * SCALE) as Hb.
  { split.
    - rewrite <- round_pos_one. apply round_pos_mono; lia.
    - rewrite <- round_pos_huge. apply round_pos_mono; lia. }
  split; [|done]. unfold of_int. pose proof huge_below_overflow.
  destruct (Z.eqb_spec z 0); [lia|]. rewrite Z.abs_eq by lia.
  destruct (Z.leb_spec OVERFLOW (round_pos z 1)); [lia|].
  by destruct (Z.ltb_spec z 0); [lia|].
Qed.

Lemma of_int_small z :
  0 < z < 2 ^ 53 → of_int z = Some (FFin (z * SCALE)).
Proof.
  intros Hz. destruct (of_int_pos z) as [-> _]; [|by rewrite round_pos_int].
  assert (2 ^ 53 < 2 ^ 1023) by (by apply Z.ltb_lt). lia.
Qed.

Lemma py_int_rounded y :
  0 <= y < OVERFLOW → py_int (of_rounded false y) = Ok (y / SCALE).
Proof.
  intros Hy. unfold of_rounded.
  destruct (Z.leb_spec OVERFLOW y); [lia|].
  destruct (Z.eqb_spec y 0) as [->|]; [done|].
  unfold py_int, trunc. by rewrite Z.quot_div_nonneg by (pose proof SCALE_pos; lia).
Qed.

(** The number of active glyphs is the integer part of [40 * c / l], and
    40 when the streak is not shorter than [l]. *)
Lemma bar_filled_exact c l :
  0 <= c < 2 ^ 1023 → 0 < l <= 2 ^ 46 →
  bar_filled c (NInt l) 40 = Ok (Z.min 40 (40 * c / l)).
Proof.
  intros Hc Hl. pose proof SCALE_pos as HS. pose proof huge_below_overflow as HO.
  assert (2 ^ 46 < 2 ^ 53) as H4653 by done.
  unfold bar_filled. cbn [num_truthy].
  destruct (Z.eqb_spec l 0); [lia|]. cbn [negb num_float].
  rewrite (of_int_small l) by lia. cbn [of_option]. rewrite res_bind_ok.
  unfold int_truediv.
  destruct (Z.eq_dec c 0) as [->|Hc0].
  { change (of_int 0) with (Some (FFin 0)). cbn [of_option].
    rewrite res_bind_ok. cbn [is_zero].
    destruct (Z.eqb_spec (l * SCALE) 0); [lia|]. rewrite res_bind_ok.
    change (0 <? 0) with false. cbv iota.
    rewrite Z.mul_0_r, Z.div_0_l by lia. done. }
  destruct (of_int_pos c ltac:(lia)) as [-> HC].
  set (C := round_pos c 1) in *. cbn [of_option]. rewrite res_bind_ok.
  cbn [is_zero]. destruct (Z.eqb_spec (l * SCALE) 0); [lia|].
  rewrite res_bind_ok, div_pos by lia.
  destruct (Z.ltb_spec 0 c); [|lia].
  unfold int_mul. rewrite (of_int_small 40) by done.
  cbn [of_option]. 
  destruct (Z.lt_ge_cases c l) as [Hlt|Hge].
  - (* the streak is shorter than the longest one *)
    assert (C = c * SCALE) as -> by (apply round_pos_int; lia).
    assert (round_pos (c * SCALE) (l * SCALE) = round_pos c l) as ->
      by (apply round_pos_ratio; lia).
    destruct (ratio_exact c l ltac:(lia) ltac:(lia)) as (Hq & Hy & Hdiv).
    set (q := round_pos c l) in *.
    rewrite of_rounded_pos by lia.
    unfold min_one, ltb, one. cbn [value].
    destruct (Z.ltb_spec q SCALE); [|lia].
    rewrite res_bind_ok, mul_pos, res_bind_ok by lia.
    assert (round_pos (40 * SCALE * q) (SCALE * SCALE)
            = round_pos (40 * q) SCALE) as ->
      by (apply round_pos_ratio; lia).
    assert (40 * SCALE < OVERFLOW) by lia.
    rewrite py_int_rounded, Hdiv by lia.
    f_equal. assert (40 * c / l < 40) by (apply Z.div_lt_upper_bound; lia). lia.
  - (* the streak is as long as the longest one, or longer *)
    set (q := round_pos C (l * SCALE)).
    assert (1 * SCALE <= l * SCALE) as HlS
      by (apply Z.mul_le_mono_nonneg_r; lia).
    assert (l * SCALE <= C) as HlC.
    { rewrite <- (round_pos_int l) by lia. apply round_pos_mono; lia. }
    assert (SCALE <= q) as Hq1.
    { rewrite <- round_pos_one. apply round_pos_mono; lia. }
    assert (q <= 2 ^ 1023 * SCALE) as Hq2.
    { rewrite <- round_pos_huge. apply round_pos_mono; lia. }
    rewrite of_rounded_pos by lia.
    unfold min_one, ltb, one. cbn [value].
    destruct (Z.ltb_spec q SCALE); [lia|].
    rewrite res_bind_ok, mul_pos, res_bind_ok by lia.
    assert (round_pos (40 * SCALE * SCALE) (SCALE * SCALE) = 40 * SCALE) as ->.
    { rewrite (round_pos_ratio (40 * SCALE * SCALE) (SCALE * SCALE) 40 1)
        by lia.
      by apply round_pos_int. }
    assert (40 * SCALE < OVERFLOW) by lia.
    rewrite py_int_rounded by lia. rewrite Z.div_mul by lia.
    f_equal. assert (40 <= 40 * c / l) by (apply Z.div_le_lower_bound; lia). lia.
Qed.

(** ** Dates are in range *)

Lemma days_before_year_next y :
  1 <= y →
  DateMath.days_before_year (y + 1)
  = DateMath.days_before_year y + 365 + (if DateMath.is_leap y then 1 else 0).
Proof.
  intros Hy. unfold DateMath.days_before_year, DateMath.is_leap. cbv zeta.
  replace (y + 1 - 1) with y by lia.
  destruct (Z.eqb_spec (y mod 4) 0), (Z.eqb_spec (y mod 100) 0),
    (Z.eqb_spec (y mod 400) 0); cbn [negb andb orb];
    Z.to_euclidean_division_equations; lia.
Qed.

Lemma days_before_year_mono y y' :
  1 <= y <= y' → DateMath.days_before_year y <= DateMath.days_before_year y'.
Proof.
  intros Hy. unfold DateMath.days_before_year. cbv zeta.
  Z.to_euclidean_division_equations. lia.
Qed.

Lemma make_date_range y m d n :
  DateMath.make_date y m d = Some n → 1 <= n <= DateMath.MAXORDINAL.
Proof.
  unfold DateMath.make_date, DateMath.MINYEAR, DateMath.MAXYEAR.
  destruct (_ && _) eqn:E; [|done]. intros [= <-].
  repeat (apply andb_prop in E as [E ?]).
  assert (1 <= y <= 9999 ∧ 1 <= m <= 12 ∧ 1 <= d <= DateMath.days_in_month y m)
    as (Hy & Hm & Hd) by lia.
  clear E.
  assert (DateMath.days_before_month y m + d
          <= 365 + (if DateMath.is_leap y then 1 else 0)) as Hyear.
  { unfold DateMath.days_before_month, DateMath.days_in_month in *.
    assert (m = 1 ∨ m = 2 ∨ m = 3 ∨ m = 4 ∨ m = 5 ∨ m = 6 ∨ m = 7 ∨ m = 8
            ∨ m = 9 ∨ m = 10 ∨ m = 11 ∨ m = 12) as Hcases by lia.
    destruct (DateMath.is_leap y);
      repeat (destruct Hcases as [->|Hcases]); try subst m;
      cbn in *; lia. }
  assert (0 <= DateMath.days_before_month y m) as Hm0.
  { unfold DateMath.days_before_month.
    assert (m = 1 ∨ m = 2 ∨ m = 3 ∨ m = 4 ∨ m = 5 ∨ m = 6 ∨ m = 7 ∨ m = 8
            ∨ m = 9 ∨ m = 10 ∨ m = 11 ∨ m = 12) as Hcases by lia.
    destruct (DateMath.is_leap y);
      repeat (destruct Hcases as [->|Hcases]); try subst m; cbn; lia. }
  assert (0 <= DateMath.days_before_year y) as Hy0.
  { change 0 with (DateMath.days_before_year 1).
    apply days_before_year_mono. lia. }
  pose proof (days_before_year_next y ltac:(lia)) as Hnext.
  pose proof (days_before_year_mono (y + 1) 10000 ltac:(lia)) as Hlast.
  change (DateMath.days_before_year 10000) with 3652059 in Hlast.
  unfold DateMath.ymd2ord, DateMath.MAXORDINAL. lia.
Qed.

Lemma strptime_range s n :
  DateMath.strptime s = Some n → 1 <= n <= DateMath.MAXORDINAL.
Proof.
  unfold DateMath.strptime.
  destruct (DateMath.parse_year s) as [[y s1]|]; [|done].
  destruct (DateMath.expect_dash s1) as [s2|]; [|done].
  destruct (DateMath.parse_month s2) as [[m s3]|]; [|done].
  destruct (DateMath.expect_dash s3) as [s4|]; [|done].
  destruct (DateMath.parse_day s4) as [[d [|]]|]; [|done|done].
  apply make_date_range.
Qed.

Lemma valid_dates_range ss ds d :
  valid_dates ss ds → d ∈ ds → 1 <= d <= DateMath.MAXORDINAL.
Proof.
  induction 1 as [|s d' ss ds Hs _ IH]; [by intros ?%elem_of_nil|].
  intros [->|Hin]%elem_of_cons; [by eapply strptime_range|by apply IH].
Qed.

(** A run of days is no longer than the list it lies in. *)
Lemma is_run_length dates d n :
  NoDup dates → 0 <= n → is_run dates d n → n <= Z.of_nat (length dates).
Proof.
  intros Hnd Hn Hrun.
  assert (seqZ d n ⊆+ dates) as Hsub.
  { apply NoDup_submseteq; [apply NoDup_seqZ|].
    intros x Hx. apply elem_of_seqZ in Hx.
    replace x with (d + (x - d)) by lia. apply Hrun. lia. }
  apply submseteq_length in Hsub. rewrite length_seqZ in Hsub. lia.
Qed.

(** ** The progress bar as the specification words it *)

Lemma filled_spec_eq current longest :
  0 <= current → 0 < longest →
  filled_spec current longest 40 = Z.min 40 (40 * current / longest).
Proof.
  intros Hc Hl. unfold filled_spec.
  set (p := Z.to_pos longest).
  assert (Z.pos p = longest) as Hp by (unfold p; lia).
  destruct (Z.lt_ge_cases current longest) as [Hlt|Hge].
  - assert (Qmin 1 (current # p) == current # p)%Q as ->.
    { apply Q.min_r. unfold Qle. cbn. lia. }
    assert (40 * current / longest < 40)
      by (apply Z.div_lt_upper_bound; lia).
    change (Qfloor (inject_Z 40 * (current # p)))
      with (40 * current / Z.pos (1 * p)).
    rewrite Pos.mul_1_l, Hp. lia.
  - assert (Qmin 1 (current # p) == 1)%Q as ->.
    { apply Q.min_l. unfold Qle. cbn. lia. }
    assert (40 <= 40 * current / longest)
      by (apply Z.div_le_lower_bound; lia).
    change (Qfloor (inject_Z 40 * 1)) with 40. lia.
Qed.

(** ** The calculator and the bar as the specification words them *)

Lemma calculate_streak_empty w : calculate_streak (str_list []) w = (Ok (0, 0), w).
Proof. done. Qed.

Lemma in_range_yesterday today :
  1 < today <= DateMath.MAXORDINAL → DateMath.in_range (today + -1) = true.
Proof.
  unfold DateMath.in_range, DateMath.MAXORDINAL. intros H.
  apply andb_true_intro. split; lia.
Qed.

(** Claim C4.  For a set of valid dates that is not empty, the current
    streak is the length of the chain of consecutive days that ends at the
    most recent date when that date is today or yesterday, and 0
    otherwise. *)
Theorem current_streak_rule ss ds w :
  valid_dates ss ds → NoDup ds → ss ≠ [] →
  1 < clock w (ticks w) <= DateMath.MAXORDINAL →
  ∃ last chain longest,
    most_recent ds last ∧ chain_ending_at ds last chain ∧
    fst (calculate_streak (str_list ss) w)
    = Ok (if bool_decide (last = clock w (ticks w)
                          ∨ last = clock w (ticks w) - 1)
          then chain else 0, longest).
Proof.
  intros Hv Hnd Hne Htoday.
  destruct (calculate_streak_spec ss ds w Hv Hnd Hne)
    as (last & chain & longest & Hmax & Hch & _ & ->).
  exists last, chain, longest. split; [done|]. split; [done|].
  cbv zeta. cbn [fst]. rewrite (in_range_yesterday _ Htoday).
  destruct (Z.eqb_spec last (clock w (ticks w))) as [E|E].
  - by rewrite bool_decide_eq_true_2 by (by left).
  - destruct (Z.eqb_spec last (clock w (ticks w) + -1)) as [E'|E'].
    + by rewrite bool_decide_eq_true_2 by (right; lia).
    + by rewrite bool_decide_eq_false_2 by lia.
Qed.

(** Claim C5.  On no dates at all the calculator returns [(0, 0)]; on a set
    of valid dates its second result is the length of the longest run of
    consecutive calendar days in the set. *)
Theorem longest_observed_streak ss ds w :
  valid_dates ss ds → NoDup ds →
  1 < clock w (ticks w) <= DateMath.MAXORDINAL →
  fst (calculate_streak (str_list []) w) = Ok (0, 0) ∧
  ∃ current longest,
    fst (calculate_streak (str_list ss) w) = Ok (current, longest) ∧
    longest_run ds longest.
Proof.
  intros Hv Hnd Htoday. split; [done|].
  destruct ss as [|s ss].
  - inversion Hv; subst. exists 0, 0. split; [done|]. split.
    + exists 0. intros k Hk. lia.
    + intros d m Hrun. destruct (Z.le_gt_cases m 0) as [|Hm]; [done|].
      specialize (Hrun 0 ltac:(lia)). by apply elem_of_nil in Hrun.
  - destruct (calculate_streak_spec (s :: ss) ds w Hv Hnd ltac:(done))
      as (last & chain & longest & _ & _ & Hlong & ->).
    cbv zeta. cbn [fst]. rewrite (in_range_yesterday _ Htoday).
    destruct (last =? clock w (ticks w)); [by eauto|]. eauto.
Qed.

Lemma filled_spec_zero longest : filled_spec 0 longest 40 = 0.
Proof.
  unfold filled_spec.
  assert (Qmin 1 (0 # Z.to_pos longest) == 0 # Z.to_pos longest)%Q as ->.
  { apply Q.min_r. by unfold Qle. }
  done.
Qed.

(** Claim C9.  With width 40, [make_bar] returns the fixed message when
    [longest <= 0]; otherwise the bar has
    [floor(40 * min(1, current / longest))] active glyphs, which is none for
    [current = 0], then [40 - filled] inactive glyphs, then the two counts.
    The floating-point computation of the script gives that integer for
    every count of days [current >= 0] below [2^1023] and every [longest] up
    to [2^46]. *)
Theorem make_bar_spec py_repr current longest :
  0 <= current < 2 ^ 1023 → longest <= 2 ^ 46 →
  filled_spec 0 longest 40 = 0 ∧
  make_bar py_repr current (VInt longest) 40
  = Ok (if longest <=? 0 then "No streak yet. Start today. 🔥"
        else
          let filled := filled_spec current longest 40 in
          let bar :=
            str_repeat fire filled +:+ str_repeat dot (40 - filled) in
          bar +:+ "  (" +:+ pretty current +:+ "/" +:+ pretty longest
          +:+ " days)").
Proof.
  intros Hc Hl. split; [apply filled_spec_zero|].
  unfold make_bar. cbn [as_number]. rewrite res_bind_ok. cbn [num_leb_int].
  destruct (Z.leb_spec longest 0) as [|Hpos]; [done|].
  rewrite bar_filled_exact, res_bind_ok by lia.
  cbv zeta. by rewrite filled_spec_eq by lia.
Qed.

(** Claim C10.  For a set of valid dates that is not empty the calculator
    returns [0 <= current <= longest] and
    [1 <= longest <= number of dates]; so [current / longest] is at most 1
    and the bar fed with these two numbers has between 0 and 40 active
    glyphs. *)
Theorem streak_bounds ss ds w :
  valid_dates ss ds → NoDup ds → ss ≠ [] →
  1 < clock w (ticks w) <= DateMath.MAXORDINAL →
  ∃ current longest filled,
    fst (calculate_streak (str_list ss) w) = Ok (current, longest) ∧
    0 <= current <= longest ∧
    1 <= longest <= Z.of_nat (length ds) ∧
    (current # Z.to_pos longest <= 1)%Q ∧
    bar_filled current (NInt longest) 40 = Ok filled ∧
    0 <= filled <= 40.
Proof.
  intros Hv Hnd Hne Htoday.
  destruct (calculate_streak_spec ss ds w Hv Hnd Hne)
    as (last & chain & longest & Hmax & Hch & Hlong & ->).
  cbv zeta. cbn [fst]. rewrite (in_range_yesterday _ Htoday).
  destruct Hch as (Hc1 & Hrun & _). destruct Hlong as [[d Hrund] Hub].
  pose proof (Hub _ _ Hrun) as Hcl.
  assert (longest <= Z.of_nat (length ds)) as Hlen
    by (apply (is_run_length ds d); [done|lia|done]).
  assert (longest <= DateMath.MAXORDINAL) as Hbig.
  { pose proof (valid_dates_range _ _ _ Hv (Hrund 0 ltac:(lia))).
    pose proof (valid_dates_range _ _ _ Hv (Hrund (longest - 1) ltac:(lia))).
    lia. }
  assert (∀ current, 0 <= current <= longest →
            ∃ filled, 0 <= current <= longest ∧
              1 <= longest <= Z.of_nat (length ds) ∧
              (current # Z.to_pos longest <= 1)%Q ∧
              bar_filled current (NInt longest) 40 = Ok filled ∧
              0 <= filled <= 40) as Hbar.
  { intros current Hcur. exists (Z.min 40 (40 * current / longest)).
    split; [done|]. split; [lia|]. split.
    { unfold Qle. cbn. rewrite Z2Pos.id by lia. lia. }
    assert (DateMath.MAXORDINAL < 2 ^ 46) by done.
    assert (2 ^ 46 < 2 ^ 1023) by (by apply Z.ltb_lt).
    split; [apply bar_filled_exact; lia|].
    assert (0 <= 40 * current / longest) by (apply Z.div_pos; lia). lia. }
  destruct (last =? clock w (ticks w)).
  - destruct (Hbar chain ltac:(lia)) as [filled H]. by exists chain, longest, filled.
  - destruct (last =? clock w (ticks w) + -1).
    + destruct (Hbar chain ltac:(lia)) as [filled H].
      by exists chain, longest, filled.
    + destruct (Hbar 0 ltac:(lia)) as [filled H]. by exists 0, longest, filled.
Qed.

(** ** The properties at sample inputs *)

Lemma valid_january : valid_dates january january_days.
Proof. repeat constructor. Qed.

Lemma NoDup_january : NoDup january_days.
Proof. exact (bool_decide_unpack (NoDup january_days) I). Qed.

Lemma current_streak_rule_witness :
  ∃ last chain longest,
    most_recent january_days last ∧ chain_ending_at january_days last chain ∧
    fst (calculate_streak (str_list january) first_run)
    = Ok (if bool_decide (last = 738888 ∨ last = 738888 - 1)
          then chain else 0, longest).
Proof.
  apply (current_streak_rule january january_days first_run).
  - repeat constructor.
  - exact (bool_decide_unpack (NoDup january_days) I).
  - discriminate.
  - vm_compute. split; [reflexivity|discriminate].
Defined.

Lemma longest_observed_streak_witness :
  fst (calculate_streak (str_list []) first_run) = Ok (0, 0) ∧
  ∃ current longest,
    fst (calculate_streak (str_list january) first_run)
    = Ok (current, longest) ∧
    longest_run january_days longest.
Proof.
  apply (longest_observed_streak january january_days first_run).
  - repeat constructor.
  - exact (bool_decide_unpack (NoDup january_days) I).
  - vm_compute. split; [reflexivity|discriminate].
Defined.

Lemma streak_bounds_witness :
  ∃ current longest filled,
    fst (calculate_streak (str_list january) first_run)
    = Ok (current, longest) ∧
    0 <= current <= longest ∧
    1 <= longest <= Z.of_nat (length january_days) ∧
    (current # Z.to_pos longest <= 1)%Q ∧
    bar_filled current (NInt longest) 40 = Ok filled ∧
    0 <= filled <= 40.
Proof.
  apply (streak_bounds january january_days first_run).
  - repeat constructor.
  - exact (bool_decide_unpack (NoDup january_days) I).
  - discriminate.
  - vm_compute. split; [reflexivity|discriminate].
Defined.

Lemma make_bar_spec_witness :
  filled_spec 0 10 40 = 0 ∧
  make_bar repr_sample 7 (VInt 10) 40
  = Ok (if 10 <=? 0 then "No streak yet. Start today. 🔥"
        else
          let filled := filled_spec 7 10 40 in
          let bar :=
            str_repeat fire filled +:+ str_repeat dot (40 - filled) in
          bar +:+ "  (" +:+ pretty 7 +:+ "/" +:+ pretty 10 +:+ " days)").
Proof.
  apply (make_bar_spec repr_sample 7 10).
  - vm_compute. split; [discriminate|reflexivity].
  - vm_compute. discriminate.
Defined.


Lemma record_always_written_witness :
  ∃ m ds,
    data_file (snd (main repr_sample first_run))
    = Some (Document (VDict m)) ∧
    m !! "dates" = Some (str_list ds) ∧
    StronglySorted str_le ds ∧ NoDup ds ∧
    DateMath.strftime
      (clock first_run (ticks first_run + readings_of_load first_run)%nat)
    ∈ ds ∧
    ∀ report, ∃ w'',
      main repr_sample (with_report report first_run) = (Ok (), w'') ∧
      data_file w'' = Some (Document (VDict m)).
Proof.
  apply (record_always_written repr_sample first_run).
  refine (eq_trans (surjective_pairing _) (f_equal (λ r, (r, _)) _)).
    vm_compute. reflexivity.
Defined.

Lemma longest_streak_never_decreases_witness :
  ∃ p', prior_longest (snd (main repr_sample later_run)) = Some p' ∧
    3 <= p' ∧
    (fst (main repr_sample later_run) = Ok () →
     ∃ ds current observed wa wb,
       stored_dates (snd (main repr_sample later_run)) = Some (VStr <$> ds) ∧
       calculate_streak (str_list ds) wa = (Ok (current, observed), wb) ∧
       p' = Z.max 3 observed).
Proof.
  apply (longest_streak_never_decreases repr_sample later_run
           (fst (main repr_sample later_run))
           (snd (main repr_sample later_run)) 3).
  - apply surjective_pairing.
  - vm_compute. reflexivity.
Defined.

Lemma main_outputs_determined_witness :
  fst (main repr_sample first_run) = fst (main repr_sample same_day_run) ∧
  outputs (snd (main repr_sample first_run))
  = outputs (snd (main repr_sample same_day_run)) ∧
  ∃ k, (k ≤ 6)%nat ∧
    ticks (snd (main repr_sample first_run)) = (ticks first_run + k)%nat ∧
    ticks (snd (main repr_sample same_day_run))
    = (ticks same_day_run + k)%nat.
Proof.
  apply (main_outputs_determined repr_sample first_run same_day_run).
  - reflexivity.
  - intros i Hi. reflexivity.
Defined.

(** * Further properties *)

(** ** The text of a date reads back as the date *)

(** Month and day from the day of the year [r], counted from 0, as
    [_ord2ymd] finds them: every day of a common and of a leap year. *)
Lemma month_day_checked (leap : bool) (r : Z) :
  0 <= r < 365 →
  let month := Z.shiftr (r + 50) 5 in
  let preceding :=
    DateMath.days_before_month_common month
    + (if (2 <? month) && leap then 1 else 0) in
  let month' := month - 1 in
  let preceding' :=
    preceding
    - (DateMath.days_in_month 1 month'
       + (if (month' =? 2) && leap then 1 else 0)) in
  let m := if r <? preceding then month' else month in
  let d := if r <? preceding then r - preceding' + 1 else r - preceding + 1 in
  1 <= m <= 12 ∧
  1 <= d <= (if m =? 2 then (if leap then 29 else 28)
             else if (m =? 4) || (m =? 6) || (m =? 9) || (m =? 11) then 30
             else 31) ∧
  DateMath.days_before_month_common m
  + (if (2 <? m) && leap then 1 else 0) + d = r + 1.
Proof.
  intros Hr.
  assert (forallb
    (fun leap => forallb
      (fun r =>
         let month := Z.shiftr (r + 50) 5 in
         let preceding :=
           DateMath.days_before_month_common month
           + (if (2 <? month) && leap then 1 else 0) in
         let month' := month - 1 in
         let preceding' :=
           preceding
           - (DateMath.days_in_month 1 month'
              + (if (month' =? 2) && leap then 1 else 0)) in
         let m := if r <? preceding then month' else month in
         let d :=
           if r <? preceding then r - preceding' + 1
           else r - preceding + 1 in
         (1 <=? m) && (m <=? 12) && (1 <=? d)
         && (d <=? (if m =? 2 then (if leap then 29 else 28)
                    else if (m =? 4) || (m =? 6) || (m =? 9) || (m =? 11)
                         then 30 else 31))
         && (DateMath.days_before_month_common m
             + (if (2 <? m) && leap then 1 else 0) + d =? r + 1))
      (seqZ 0 365)) [true; false] = true) as Hall
    by (vm_compute; reflexivity).
  rewrite forallb_forall in Hall.
  assert (In leap [true; false]) as Hleap by (destruct leap; simpl; tauto).
  apply Hall in Hleap. rewrite forallb_forall in Hleap.
  assert (In r (seqZ 0 365)) as Hin
    by (apply list_elem_of_In, elem_of_seqZ; lia).
  apply Hleap in Hin. cbv zeta in *.
  repeat (apply andb_prop in Hin as [Hin ?]). lia.
Qed.

(** The year that [_ord2ymd] finds, and the days before it. *)
Lemma ord2ymd_spec n :
  1 <= n →
  ∃ y m d, DateMath.ord2ymd n = (y, m, d) ∧
    1 <= y ∧ 1 <= m <= 12 ∧ 1 <= d <= DateMath.days_in_month y m ∧
    DateMath.ymd2ord y m d = n.
Proof.
  intros Hn. unfold DateMath.ord2ymd. cbv zeta.
  set (n0 := n - 1).
  set (n400 := n0 / 146097). set (r400 := n0 mod 146097).
  set (n100 := r400 / 36524). set (r100 := r400 mod 36524).
  set (n4 := r100 / 1461). set (r4 := r100 mod 1461).
  set (n1 := r4 / 365). set (r1 := r4 mod 365).
  assert (n0 = 146097 * n400 + r400 ∧ 0 <= r400 < 146097) as [E400 B400]
    by (unfold n400, r400; split;
        [apply Z.div_mod|apply Z.mod_pos_bound]; lia).
  assert (r400 = 36524 * n100 + r100 ∧ 0 <= r100 < 36524) as [E100 B100]
    by (unfold n100, r100; split;
        [apply Z.div_mod|apply Z.mod_pos_bound]; lia).
  assert (r100 = 1461 * n4 + r4 ∧ 0 <= r4 < 1461) as [E4 B4]
    by (unfold n4, r4; split; [apply Z.div_mod|apply Z.mod_pos_bound]; lia).
  assert (r4 = 365 * n1 + r1 ∧ 0 <= r1 < 365) as [E1 B1]
    by (unfold n1, r1; split; [apply Z.div_mod|apply Z.mod_pos_bound]; lia).
  assert (0 <= n0 ∧ n = n0 + 1) as [Hn0 En] by (unfold n0; lia).
  assert (0 <= n400 ∧ 0 <= n100 <= 4 ∧ 0 <= n4 <= 24 ∧ 0 <= n1 <= 4)
    as (H400 & H100 & H4 & H1) by lia.
  clearbody n0 n400 r400 n100 r100 n4 r4 n1 r1.
  set (year := n400 * 400 + 1 + n100 * 100 + n4 * 4 + n1).
  destruct ((n1 =? 4) || (n100 =? 4)) eqn:Elast.
  - (* the last day of a leap year *)
    exists (year - 1), 12, 31. split; [done|].
    assert (DateMath.is_leap (year - 1) = true) as Hleap.
    { unfold DateMath.is_leap, year.
      apply orb_prop in Elast as [E|E]; apply Z.eqb_eq in E.
      - assert (n4 <= 23) by lia.
        replace (n400 * 400 + 1 + n100 * 100 + n4 * 4 + n1 - 1)
          with (4 * (100 * n400 + 25 * n100 + n4 + 1)) by lia.
        assert ((4 * (100 * n400 + 25 * n100 + n4 + 1)) mod 4 = 0) as ->
          by (rewrite Z.mul_comm; apply Z.mod_mul; lia).
        destruct (Z.eqb_spec
                    ((4 * (100 * n400 + 25 * n100 + n4 + 1)) mod 100) 0)
          as [E100'|E100']; [|done].
        exfalso. Z.to_euclidean_division_equations. lia.
      - assert (n4 = 0 ∧ n1 = 0) as [-> ->] by lia.
        replace (n400 * 400 + 1 + n100 * 100 + 0 * 4 + 0 - 1)
          with ((n400 + 1) * 400) by lia.
        assert (((n400 + 1) * 400) mod 400 = 0) as -> by (apply Z.mod_mul; lia).
        assert (((n400 + 1) * 400) mod 4 = 0) as ->.
        { replace ((n400 + 1) * 400) with ((n400 + 1) * 100 * 4) by lia.
          apply Z.mod_mul. lia. }
        cbn. by rewrite orb_true_r. }
    split; [unfold year; lia|]. split; [lia|].
    split; [unfold DateMath.days_in_month; cbn; lia|].
    unfold DateMath.ymd2ord, DateMath.days_before_month. rewrite Hleap.
    cbn [DateMath.days_before_month_common Z.ltb Z.compare Pos.compare
         Pos.compare_cont andb].
    unfold DateMath.days_before_year, year. cbv zeta.
    apply orb_prop in Elast as [E|E]; apply Z.eqb_eq in E;
      Z.to_euclidean_division_equations; lia.
  - apply orb_false_elim in Elast as [En1 En100].
    apply Z.eqb_neq in En1, En100.
    set (leapyear := (n1 =? 3) && (negb (n4 =? 24) || (n100 =? 3))).
    assert (DateMath.is_leap year = leapyear) as Hleap.
    { unfold DateMath.is_leap, leapyear, year.
      destruct (Z.eqb_spec n1 3), (Z.eqb_spec n4 24), (Z.eqb_spec n100 3),
        (Z.eqb_spec ((n400 * 400 + 1 + n100 * 100 + n4 * 4 + n1) mod 4) 0),
        (Z.eqb_spec ((n400 * 400 + 1 + n100 * 100 + n4 * 4 + n1) mod 100) 0),
        (Z.eqb_spec ((n400 * 400 + 1 + n100 * 100 + n4 * 4 + n1) mod 400) 0);
        cbn [negb andb orb]; try reflexivity; exfalso;
        Z.to_euclidean_division_equations; lia. }
    assert (DateMath.days_before_year year = n0 - r1) as Hyear.
    { unfold DateMath.days_before_year, year. cbv zeta.
      Z.to_euclidean_division_equations. lia. }
    pose proof (month_day_checked leapyear r1 B1) as Hmd. cbv zeta in Hmd.
    destruct (r1 <? _) eqn:Elt; cbv iota in Hmd;
      (eexists _, _, _; split; [reflexivity|]);
      (split; [unfold year; lia|]);
      destruct Hmd as (Hm & Hd & Hsum);
      (split; [exact Hm|]);
      try (set (dim1 := DateMath.days_in_month 1 _) in *; clearbody dim1);
      unfold DateMath.days_in_month, DateMath.ymd2ord,
        DateMath.days_before_month; rewrite Hleap, Hyear;
      (split; [exact Hd|]); lia.
Qed.

(** The year a day falls in, from the days before the years around it. *)
Lemma ymd2ord_year y m d :
  1 <= y → 1 <= m <= 12 → 1 <= d <= DateMath.days_in_month y m →
  DateMath.days_before_year y < DateMath.ymd2ord y m d
  <= DateMath.days_before_year (y + 1).
Proof.
  intros Hy Hm Hd. rewrite days_before_year_next by done.
  unfold DateMath.ymd2ord, DateMath.days_before_month,
    DateMath.days_in_month in *.
  assert (m = 1 ∨ m = 2 ∨ m = 3 ∨ m = 4 ∨ m = 5 ∨ m = 6 ∨ m = 7 ∨ m = 8
          ∨ m = 9 ∨ m = 10 ∨ m = 11 ∨ m = 12) as Hcases by lia.
  destruct (DateMath.is_leap y);
    repeat (destruct Hcases as [->|Hcases]); try subst m; cbn in *; lia.
Qed.

(** The four digits of a year from 1000 on. *)
Lemma parse_year_pretty y rest :
  1000 <= y <= 9999 →
  DateMath.parse_year (pretty y +:+ rest) = Some (y, rest).
Proof.
  intros Hy.
  assert (forallb
            (fun y =>
               match pretty y with
               | String a (String b (String c (String d ""))) =>
                   match DateMath.digit a, DateMath.digit b,
                         DateMath.digit c, DateMath.digit d with
                   | Some a, Some b, Some c, Some d =>
                       1000 * a + 100 * b + 10 * c + d =? y
                   | _, _, _, _ => false
                   end
               | _ => false
               end)
            (seqZ 1000 9000) = true) as Hall by (vm_compute; reflexivity).
  rewrite forallb_forall in Hall.
  assert (In y (seqZ 1000 9000)) as Hin
    by (apply list_elem_of_In, elem_of_seqZ; lia).
  apply Hall in Hin.
  destruct (pretty y) as [|a [|b [|c [|d [|]]]]]; try discriminate Hin.
  destruct (DateMath.digit a) as [a'|] eqn:Ea; [|done].
  destruct (DateMath.digit b) as [b'|] eqn:Eb; [|done].
  destruct (DateMath.digit c) as [c'|] eqn:Ec; [|done].
  destruct (DateMath.digit d) as [d'|] eqn:Ed; [|done].
  apply Z.eqb_eq in Hin.
  change (DateMath.parse_year
            (String a (String b (String c (String d rest)))) = Some (y, rest)).
  unfold DateMath.parse_year. by rewrite Ea, Eb, Ec, Ed, Hin.
Qed.

Lemma parse_month_pad m rest :
  1 <= m <= 12 →
  DateMath.parse_month (DateMath.pad 2 m +:+ rest) = Some (m, rest).
Proof.
  intros Hm.
  assert (m = 1 ∨ m = 2 ∨ m = 3 ∨ m = 4 ∨ m = 5 ∨ m = 6 ∨ m = 7 ∨ m = 8
          ∨ m = 9 ∨ m = 10 ∨ m = 11 ∨ m = 12) as Hcases by lia.
  repeat (destruct Hcases as [->|Hcases]); try subst m; reflexivity.
Qed.

Lemma parse_day_pad d :
  1 <= d <= 31 → DateMath.parse_day (DateMath.pad 2 d) = Some (d, "").
Proof.
  intros Hd.
  assert (forallb
            (fun d =>
               match DateMath.parse_day (DateMath.pad 2 d) with
               | Some (d', "") => d' =? d
               | _ => false
               end)
            (seqZ 1 31) = true) as Hall by (vm_compute; reflexivity).
  rewrite forallb_forall in Hall.
  assert (In d (seqZ 1 31)) as Hin
    by (apply list_elem_of_In, elem_of_seqZ; lia).
  apply Hall in Hin.
  destruct (DateMath.parse_day (DateMath.pad 2 d)) as [[d' [|]]|];
    try discriminate Hin.
  apply Z.eqb_eq in Hin. by rewrite Hin.
Qed.

Lemma expect_dash_text rest : DateMath.expect_dash ("-" +:+ rest) = Some rest.
Proof. reflexivity. Qed.

Lemma days_in_month_le y m : DateMath.days_in_month y m <= 31.
Proof.
  unfold DateMath.days_in_month.
  repeat case_match; lia.
Qed.

Lemma strptime_strftime n :
  first_text_day <= n <= DateMath.MAXORDINAL →
  DateMath.strptime (DateMath.strftime n) = Some n.
Proof.
  unfold first_text_day, DateMath.MAXORDINAL. intros Hn.
  destruct (ord2ymd_spec n) as (y & m & d & E & Hy & Hm & Hd & Hord); [lia|].
  pose proof (ymd2ord_year y m d Hy Hm Hd) as Hbetween.
  assert (1000 <= y <= 9999) as Hy4.
  { split.
    - destruct (Z_lt_le_dec y 1000) as [Hlt|]; [|done].
      pose proof (days_before_year_mono (y + 1) 1000 ltac:(lia)) as Hmono.
      change (DateMath.days_before_year 1000) with 364877 in Hmono. lia.
    - destruct (Z_lt_le_dec 9999 y) as [Hlt|]; [|done].
      pose proof (days_before_year_mono 10000 y ltac:(lia)) as Hmono.
      change (DateMath.days_before_year 10000) with 3652059 in Hmono. lia. }
  pose proof (days_in_month_le y m) as Hd31.
  unfold DateMath.strftime, DateMath.strptime. rewrite E.
  rewrite parse_year_pretty by done.
  rewrite expect_dash_text.
  rewrite parse_month_pad by done.
  rewrite expect_dash_text.
  rewrite parse_day_pad by lia.
  unfold DateMath.make_date, DateMath.MINYEAR, DateMath.MAXYEAR.
  rewrite Hord.
  assert ((1 <=? y) && (y <=? 9999) && (1 <=? m) && (m <=? 12) && (1 <=? d)
          && (d <=? DateMath.days_in_month y m) = true) as ->; [|done].
  repeat (apply andb_true_intro; split); lia.
Qed.

(** ** The steps of a run on a record of the script's own *)

Lemma own_text_valid ss :
  Forall own_text ss → NoDup ss →
  ∃ ds, valid_dates ss ds ∧ NoDup ds ∧ ss = DateMath.strftime <$> ds.
Proof.
  induction 1 as [|s ss (d & Hd & ->) _ IH]; intros Hnd.
  - exists []. split; [constructor|]. split; [constructor|done].
  - apply NoDup_cons in Hnd as [Hnotin Hnd].
    destruct (IH Hnd) as (ds & Hv & Hndd & ->).
    exists (d :: ds). split; [|split; [|done]].
    + constructor; [by apply strptime_strftime|done].
    + apply NoDup_cons. split; [|done].
      intros Hin. apply Hnotin. by apply list_elem_of_fmap_2.
Qed.

Lemma normalize_dates_str ss :
  normalize_dates (str_list ss)
  = Ok (str_list (merge_sort str_le (remove_dups ss))).
Proof.
  unfold normalize_dates, str_list. cbn [py_iter].
  rewrite res_bind_ok, map_res_as_str. by rewrite res_bind_ok.
Qed.

(** The calculator on distinct valid dates, on a day that has a
    yesterday. *)
Lemma calculate_streak_total ss ds w :
  valid_dates ss ds → NoDup ds → ss ≠ [] →
  1 < clock w (ticks w) <= DateMath.MAXORDINAL →
  ∃ current longest,
    calculate_streak (str_list ss) w = (Ok (current, longest), tick 1 w) ∧
    0 <= current <= longest ∧ 1 <= longest <= DateMath.MAXORDINAL ∧
    (most_recent ds (clock w (ticks w)) → 1 <= current).
Proof.
  intros Hv Hnd Hne Htoday.
  destruct (calculate_streak_spec ss ds w Hv Hnd Hne)
    as (last & chain & longest & Hmax & Hch & Hlong & ->).
  cbv zeta. rewrite (in_range_yesterday _ Htoday).
  destruct Hch as (Hc1 & Hrun & _). destruct Hlong as [[d Hrund] Hub].
  pose proof (Hub _ _ Hrun) as Hcl.
  assert (longest <= DateMath.MAXORDINAL) as Hbig.
  { pose proof (valid_dates_range _ _ _ Hv (Hrund 0 ltac:(lia))).
    pose proof (valid_dates_range _ _ _ Hv (Hrund (longest - 1) ltac:(lia))).
    lia. }
  destruct (Z.eqb_spec last (clock w (ticks w))) as [Hlast|Hlast].
  - exists chain, longest. repeat split; (done || lia).
  - assert (most_recent ds (clock w (ticks w)) → False) as Hnot.
    { intros Hm. apply Hlast. by apply (most_recent_unique ds). }
    destruct (last =? clock w (ticks w) + -1).
    + exists chain, longest. repeat split; (done || lia).
    + exists 0, longest. repeat split; (done || lia).
Qed.

Lemma date_plus_ok d k :
  1 <= d + k <= DateMath.MAXORDINAL → date_plus d k = Ok (d + k).
Proof.
  intros H. unfold date_plus, DateMath.in_range, DateMath.MAXORDINAL in *.
  assert ((1 <=? d + k) && (d + k <=? 3652059) = true) as ->; [|done].
  apply andb_true_intro. split; lia.
Qed.

(** The loop of the heatmap ends when no day it walks over is the last
    day of all. *)
Lemma calendar_loop_ok days start dates : ∀ week out_lines,
  Forall (fun cur => 0 <= cur < DateMath.MAXORDINAL) days →
  ∃ r, calendar_loop days start dates week out_lines = Ok r.
Proof.
  induction days as [|cur days IH]; intros week out_lines Hall.
  - by eexists.
  - apply Forall_cons in Hall as [Hcur Hall]. cbn [calendar_loop].
    rewrite date_plus_ok by lia.
    destruct (length (week ++ [_]) =? 7)%nat; rewrite res_bind_ok;
      by apply IH.
Qed.

Lemma weekday_range n : 0 <= DateMath.weekday n < 7.
Proof. unfold DateMath.weekday. apply Z.mod_pos_bound. lia. Qed.

Lemma make_calendar_block_some ss ds w :
  valid_dates ss ds → ss ≠ [] →
  127 <= clock w (ticks w) < DateMath.MAXORDINAL →
  ∃ text, make_calendar_block (str_list ss) 4 w = (Ok text, tick 1 w).
Proof.
  intros Hv Hne Htoday. unfold make_calendar_block.
  assert (py_truthy (str_list ss) = true) as -> by (by destruct ss).
  cbn [negb]. unfold str_list at 1. cbn [py_iter]. rewrite bind_lift.
  rewrite (map_res_to_date _ _ Hv), bind_lift, bind_utcnow.
  set (today := clock w (ticks w)) in *.
  unfold DateMath.MAXORDINAL in *.
  rewrite (date_plus_ok today (- (4 * 30)))
    by (unfold DateMath.MAXORDINAL; lia).
  rewrite bind_lift.
  pose proof (weekday_range (today + - (4 * 30))) as Hwd.
  assert (0 <= (DateMath.weekday (today + - (4 * 30)) + 1) mod 7 < 7) as Hoff
    by (apply Z.mod_pos_bound; lia).
  rewrite date_plus_ok by (unfold DateMath.MAXORDINAL; lia).
  rewrite bind_lift.
  set (cur := today + - (4 * 30)
              + - ((DateMath.weekday (today + - (4 * 30)) + 1) mod 7)) in *.
  destruct (calendar_loop_ok (seqZ cur (today - cur + 1))
              (today + - (4 * 30)) ds []
              ["Recent Activity Heatmap"; "`Su Mo Tu We Th Fr Sa`"])
    as [[week out_lines] ->].
  { apply Forall_forall. intros x Hx%elem_of_seqZ.
    unfold DateMath.MAXORDINAL. lia. }
  rewrite bind_lift. by eexists.
Qed.



Lemma clock_in_range_today w :
  clock_in_range w →
  first_text_day <= clock w (ticks w) <= DateMath.MAXORDINAL ∧
  127 <= clock w (ticks w) < DateMath.MAXORDINAL ∧
  1 < clock w (ticks w) <= DateMath.MAXORDINAL.
Proof.
  intros H. specialize (H (ticks w)). unfold first_text_day in *. lia.
Qed.


(** [add_today_if_missing] on a record of the script's own. *)
Lemma add_today_ok (m0 : gmap string pyval) ss p w :
  m0 !! "dates" = Some (str_list ss) → Forall own_text ss →
  m0 !! "longest_streak" = Some (VInt p) → 0 <= p <= DateMath.MAXORDINAL →
  clock_in_range w →
  ∃ ss' ds' current best,
    let m := <["longest_streak" := VInt best]>
               (<["dates" := str_list ss']> m0) in
    add_today_if_missing (VDict m0) w
    = (Ok (VDict m, current, VInt best), tick 2 w) ∧
    Forall own_text ss' ∧ valid_dates ss' ds' ∧
    (∀ s, s ∈ ss' ↔ s ∈ ss ∨ s = DateMath.strftime (clock w (ticks w))) ∧
    0 <= current <= best ∧ 1 <= best <= DateMath.MAXORDINAL ∧
    (most_recent ds' (clock w (S (ticks w))) → 1 <= current).
Proof.
  intros Hd Hown Hl Hp Hclock.
  set (t := DateMath.strftime (clock w (ticks w))).
  set (ss1 := if existsb (is_str t) (VStr <$> ss) then ss else ss ++ [t]).
  set (ss' := merge_sort str_le (remove_dups ss1)).
  assert (∀ s, s ∈ ss' ↔ s ∈ ss ∨ s = t) as Hin.
  { intros s. unfold ss'. rewrite elem_of_normalized. unfold ss1.
    destruct (existsb _ _) eqn:E.
    - apply existsb_is_str in E. naive_solver.
    - rewrite elem_of_app, list_elem_of_singleton. naive_solver. }
  assert (own_text t) as Ht.
  { exists (clock w (ticks w)). split; [|done].
    by apply clock_in_range_today. }
  assert (Forall own_text ss') as Hown'.
  { apply Forall_forall. intros s [Hs| ->]%Hin; [|done].
    by apply (proj1 (Forall_forall _ _) Hown). }
  destruct (own_text_valid ss' Hown' (normalized_NoDup _))
    as (ds' & Hv & Hnd & _).
  assert (ss' ≠ []) as Hne.
  { intros E. assert (t ∈ ss') as Hc by (apply Hin; by right).
    rewrite E in Hc. by apply elem_of_nil in Hc. }
  destruct (calculate_streak_total ss' ds' (tick 1 w) Hv Hnd Hne)
    as (current & longest & Hcalc & Hcur & Hlong & Hrecent).
  { apply (clock_in_range_today (tick 1 w)). intros n. apply Hclock. }
  exists ss', ds', current, (Z.max p longest). cbv zeta.
  split; [|split; [done|]; split; [done|]; split; [done|];
             split; [lia|]; split; [lia|]].
  - unfold add_today_if_missing.
    rewrite (bind_ok _ _ _ _ _ (today_str_eq w)). fold t.
    cbn [py_get]. rewrite Hd, bind_lift.
    change (py_contains (str_list ss) t)
      with (Ok (existsb (is_str t) (VStr <$> ss)) : res bool).
    rewrite bind_lift.
    change (str_list ss) with (VList (VStr <$> ss)).
    assert ((if existsb (is_str t) (VStr <$> ss)
             then Ok (VList (VStr <$> ss))
             else py_append (VList (VStr <$> ss)) (VStr t))
            = Ok (str_list ss1)) as ->.
    { unfold ss1, str_list. destruct (existsb _ _); [done|].
      cbn [py_append]. by rewrite fmap_app. }
    rewrite bind_lift, normalize_dates_str, bind_lift. fold ss'.
    cbn [py_setitem]. rewrite bind_lift.
    rewrite (bind_ok _ _ _ _ _ Hcalc).
    cbn [py_get]. rewrite lookup_insert_ne by done. rewrite Hl, bind_lift.
    assert (py_max (VInt p) longest = Ok (VInt (Z.max p longest))) as ->.
    { unfold py_max. cbn. destruct (Z.ltb_spec p longest); do 2 f_equal; lia. }
    rewrite bind_lift. cbn [py_setitem]. rewrite bind_lift.
    by rewrite tick_tick.
  - intros Hm. apply Hrecent. cbn [tick clock ticks].
    by replace (ticks w + 1)%nat with (S (ticks w)) by lia.
Qed.

(** ** The steps of a run *)

(** Property X1.  The text [today_str] returns for a day from 1000-01-01
    to 9999-12-31 is read back by [to_date] as that same day. *)
Theorem today_str_reads_back w :
  first_text_day <= clock w (ticks w) <= DateMath.MAXORDINAL →
  ∃ t, today_str w = (Ok t, tick 1 w) ∧
       to_date (VStr t) = Ok (clock w (ticks w)).
Proof.
  intros Hday. exists (DateMath.strftime (clock w (ticks w))).
  split; [apply today_str_eq|].
  rewrite to_date_str. by rewrite strptime_strftime.
Qed.

(** Property X2.  On a list of [str], [normalize_dates] returns the same
    texts in ascending order, each once; normalizing its result again
    changes nothing. *)
Theorem normalize_dates_sorted_set ss :
  ∃ out,
    normalize_dates (str_list ss) = Ok (str_list out) ∧
    StronglySorted str_le out ∧ NoDup out ∧ (∀ s, s ∈ out ↔ s ∈ ss) ∧
    normalize_dates (str_list out) = Ok (str_list out).
Proof.
  exists (merge_sort str_le (remove_dups ss)).
  split; [apply normalize_dates_str|].
  split; [apply normalized_sorted|]. split; [apply normalized_NoDup|].
  split; [intros s; apply elem_of_normalized|].
  apply normalize_dates_fixed; [apply normalized_sorted|apply normalized_NoDup].
Qed.

(** Property X3.  The result of [normalize_dates] depends on which texts
    the list holds only, not on their order nor on how often each
    occurs. *)
Theorem normalize_dates_order_irrelevant ss1 ss2 :
  (∀ s, s ∈ ss1 ↔ s ∈ ss2) →
  normalize_dates (str_list ss1) = normalize_dates (str_list ss2).
Proof.
  intros Hsame. rewrite !normalize_dates_str. do 2 f_equal.
  apply (StronglySorted_unique str_le);
    [apply normalized_sorted|apply normalized_sorted|].
  apply NoDup_Permutation; [apply normalized_NoDup|apply normalized_NoDup|].
  intros s. by rewrite !elem_of_normalized.
Qed.



(** ** The dates a run stores *)

(** From a record whose [dates] are the list [l], [add_today_if_missing]
    stores the texts of [l], and the text of today when it is not among
    them. *)
Lemma add_today_list_inv (m0 : gmap string pyval) l w data' current best w' :
  m0 !! "dates" = Some (VList l) →
  add_today_if_missing (VDict m0) w = (Ok (data', current, best), w') →
  ∃ strs (m : gmap string pyval),
    VStr <$> strs
    = (if existsb (is_str (DateMath.strftime (clock w (ticks w)))) l
       then l else l ++ [VStr (DateMath.strftime (clock w (ticks w)))]) ∧
    data' = VDict m ∧
    m !! "dates" = Some (str_list (merge_sort str_le (remove_dups strs))).
Proof.
  intros Hd. unfold add_today_if_missing.
  rewrite (bind_ok _ _ _ _ _ (today_str_eq w)).
  set (t := DateMath.strftime (clock w (ticks w))).
  cbn [py_get]. rewrite Hd, bind_lift. cbn [py_contains]. rewrite bind_lift.
  assert ((if existsb (is_str t) l then Ok (VList l)
           else py_append (VList l) (VStr t))
          = Ok (VList (if existsb (is_str t) l then l else l ++ [VStr t])))
    as -> by (by destruct (existsb _ _)).
  rewrite bind_lift. intros H.
  apply bind_inv in H as (dates2 & w1 & [Hnorm ->]%lift_inv & H).
  apply bind_inv in H as (data1 & w1 & [Hset ->]%lift_inv & H).
  apply bind_inv in H as ([cur longest] & w1 & Hcalc & H).
  apply bind_inv in H as (prev & w2 & [Hprev ->]%lift_inv & H).
  apply bind_inv in H as (best' & w2 & [Hmax ->]%lift_inv & H).
  apply bind_inv in H as (data2 & w2 & [Hset2 ->]%lift_inv & H).
  injection H as <- <- <- <-.
  injection Hset as <-. injection Hset2 as <-.
  apply normalize_dates_inv in Hnorm as (strs & Hiter & ->).
  cbn [py_iter] in Hiter. injection Hiter as Hiter.
  eexists strs, _. split; [done|]. split; [done|]. apply lookup_dates.
Qed.

(** Property X6.  A run that completes on a record whose [dates] are a
    list stores exactly the elements of that list and the text of the date
    it read first from the clock: no date is ever dropped. *)
Theorem run_keeps_dates py_repr w w' l :
  main py_repr w = (Ok (), w') → stored_dates w = Some l →
  ∃ l', stored_dates w' = Some l' ∧
    ∀ v, v ∈ l' ↔ v ∈ l ∨ v = VStr (DateMath.strftime (clock w (ticks w))).
Proof.
  intros Hmain Hstored.
  unfold stored_dates in Hstored.
  destruct (data_file w) as [[raw|[| | | | | |m0]]|] eqn:Hfile; try done.
  destruct (m0 !! "dates") as [[| | | | |l0|]|] eqn:Hd; try done.
  injection Hstored as ->.
  destruct (main_inv _ _ _ Hmain)
    as (m1 & strs & current & observed & best & wb & new_md & wd
        & Hload & _ & _ & _ & Hadd & Hrender & ->).
  assert (loaded w = VDict m0) as Hl by (unfold loaded; by rewrite Hfile).
  assert (readings_of_load w = 0%nat) as Hr
    by (unfold readings_of_load; by rewrite Hfile).
  rewrite Hl, Hr, tick_0 in Hadd.
  destruct (add_today_list_inv _ _ _ _ _ _ _ Hd Hadd)
    as (strs' & m & Hstrs & Hm & Hmd).
  destruct (render_world _ _ _ _ _ _ _ Hrender) as [k ->].
  unfold stored_dates, finished, saved, tick. cbn [data_file].
  injection Hm as Hm. rewrite Hm, Hmd. unfold str_list.
  eexists. split; [done|].
  set (t := DateMath.strftime (clock w (ticks w))) in *.
  intros v. rewrite list_elem_of_fmap.
  setoid_rewrite elem_of_normalized.
  assert (v ∈ VStr <$> strs' ↔ v ∈ l ∨ v = VStr t) as <-.
  { rewrite Hstrs. destruct (existsb (is_str t) l) eqn:E.
    - split; [by left|]. intros [?| ->]; [done|].
      apply existsb_exists in E as (x & Hx & Hstr).
      destruct x; try done. cbn in Hstr. apply String.eqb_eq in Hstr.
      subst. by apply list_elem_of_In.
    - rewrite elem_of_app, list_elem_of_singleton. done. }
  rewrite list_elem_of_fmap. done.
Qed.

(** ** The current streak counts today *)

Lemma valid_dates_day ss ds s :
  valid_dates ss ds → s ∈ ss → ∃ d, d ∈ ds ∧ DateMath.strptime s = Some d.
Proof.
  induction 1 as [|s' d ss ds Hs _ IH]; [by intros ?%elem_of_nil|].
  intros [->|Hin]%elem_of_cons.
  - exists d. split; [left|done].
  - destruct (IH Hin) as (d' & Hd' & E). exists d'. split; [by right|done].
Qed.

Lemma valid_dates_text ss ds d :
  valid_dates ss ds → d ∈ ds → ∃ s, s ∈ ss ∧ DateMath.strptime s = Some d.
Proof.
  induction 1 as [|s d' ss ds Hs _ IH]; [by intros ?%elem_of_nil|].
  intros [->|Hin]%elem_of_cons.
  - exists s. split; [left|done].
  - destruct (IH Hin) as (s' & Hs' & E). exists s'. split; [by right|done].
Qed.

(** Property X7.  When no stored date is later than today and midnight
    does not pass between the two readings of the clock,
    [add_today_if_missing] returns a current streak of at least one day,
    and no more than the longest streak it returns. *)
Theorem today_counts (m0 : gmap string pyval) ds p w :
  m0 !! "dates" = Some (str_list (DateMath.strftime <$> ds)) →
  Forall (fun d => first_text_day <= d <= clock w (ticks w)) ds →
  m0 !! "longest_streak" = Some (VInt p) → 0 <= p <= DateMath.MAXORDINAL →
  clock_in_range w → clock w (S (ticks w)) = clock w (ticks w) →
  ∃ data' current best,
    add_today_if_missing (VDict m0) w
    = (Ok (data', current, VInt best), tick 2 w) ∧
    1 <= current <= best.
Proof.
  intros Hd Hds Hl Hp Hclock Hsame.
  destruct (clock_in_range_today w Hclock) as (Htoday & _ & _).
  set (today := clock w (ticks w)) in *.
  assert (Forall own_text (DateMath.strftime <$> ds)) as Hown.
  { apply Forall_fmap. eapply Forall_impl; [exact Hds|].
    intros d Hd'. cbv beta in Hd'. exists d. split; [lia|done]. }
  destruct (add_today_ok m0 _ p w Hd Hown Hl Hp Hclock)
    as (ss' & ds' & current & best & Hadd & _ & Hv & Hin & Hcur & _ & Hrecent).
  fold today in Hin. rewrite Hsame in Hrecent. fold today in Hrecent.
  exists (VDict (<["longest_streak" := VInt best]>
                  (<["dates" := str_list ss']> m0))), current, best.
  split; [exact Hadd|]. split; [|lia]. apply Hrecent. split.
  - destruct (valid_dates_day ss' ds' (DateMath.strftime today) Hv)
      as (d & Hdin & E); [apply Hin; by right|].
    rewrite strptime_strftime in E by done. by injection E as <-.
  - intros d Hdin.
    destruct (valid_dates_text ss' ds' d Hv Hdin) as (s & Hs & E).
    apply Hin in Hs as [Hs| ->].
    + apply list_elem_of_fmap in Hs as (d0 & -> & Hd0).
      apply (proj1 (Forall_forall _ _) Hds) in Hd0.
      rewrite strptime_strftime in E by lia. injection E as <-. lia.
    + rewrite strptime_strftime in E by done. injection E as <-. lia.
Qed.

(** ** The report after a run *)






(** ** The calculator on any list of texts *)




(** ** The heatmap at the ends of the calendar *)

Lemma date_plus_overflow d k :
  DateMath.MAXORDINAL < d + k → date_plus d k = Raise OverflowError.
Proof.
  intros H. unfold date_plus, DateMath.in_range, DateMath.MAXORDINAL in *.
  assert ((1 <=? d + k) && (d + k <=? 3652059) = false) as ->; [|done].
  apply andb_false_intro2. lia.
Qed.

Lemma date_plus_underflow d k :
  d + k < 1 → date_plus d k = Raise OverflowError.
Proof.
  intros H. unfold date_plus, DateMath.in_range.
  assert ((1 <=? d + k) && (d + k <=? DateMath.MAXORDINAL) = false) as ->;
    [|done].
  apply andb_false_intro1. lia.
Qed.

(** The loop of the heatmap steps past its last day: when that is the last
    day of all, the step raises. *)
Lemma calendar_loop_last pre start dates : ∀ week out_lines,
  Forall (fun cur => 0 <= cur < DateMath.MAXORDINAL) pre →
  calendar_loop (pre ++ [DateMath.MAXORDINAL]) start dates week out_lines
  = Raise OverflowError.
Proof.
  induction pre as [|cur pre IH]; intros week out_lines Hall.
  - cbn [app calendar_loop].
    rewrite date_plus_overflow by lia.
    by destruct (length (week ++ [_]) =? 7)%nat.
  - apply Forall_cons in Hall as [Hcur Hall]. cbn [app calendar_loop].
    rewrite date_plus_ok by lia.
    destruct (length (week ++ [_]) =? 7)%nat; rewrite res_bind_ok;
      by apply IH.
Qed.

(** Property X10.  For dates that are valid and not none,
    [make_calendar_block(dates, months=4)] returns when today is between
    0001-05-07 and 9999-12-30; it raises [OverflowError] on 9999-12-31,
    where the loop steps past the last day there is, and up to 0001-04-30,
    where the window would start before the first day. *)
Theorem make_calendar_block_outcome ss ds w :
  valid_dates ss ds → ss ≠ [] →
  let today := clock w (ticks w) in
  (127 <= today < DateMath.MAXORDINAL →
   ∃ text, make_calendar_block (str_list ss) 4 w = (Ok text, tick 1 w)) ∧
  (today = DateMath.MAXORDINAL ∨ today <= 120 →
   make_calendar_block (str_list ss) 4 w = (Raise OverflowError, tick 1 w)).
Proof.
  intros Hv Hne today. split.
  - intros Htoday. by apply (make_calendar_block_some ss ds).
  - intros Htoday. unfold make_calendar_block.
    assert (py_truthy (str_list ss) = true) as -> by (by destruct ss).
    cbn [negb]. unfold str_list. cbn [py_iter]. rewrite bind_lift.
    rewrite (map_res_to_date _ _ Hv), bind_lift, bind_utcnow.
    fold today. destruct Htoday as [Hlast|Hfirst].
    + rewrite Hlast. unfold DateMath.MAXORDINAL.
      rewrite (date_plus_ok 3652059 (- (4 * 30)))
        by (unfold DateMath.MAXORDINAL; lia).
      rewrite bind_lift.
      pose proof (weekday_range (3652059 + - (4 * 30))) as Hwd.
      assert (0 <= (DateMath.weekday (3652059 + - (4 * 30)) + 1) mod 7 < 7)
        as Hoff by (apply Z.mod_pos_bound; lia).
      rewrite date_plus_ok by (unfold DateMath.MAXORDINAL; lia).
      rewrite bind_lift.
      set (cur := 3652059 + - (4 * 30)
                  + - ((DateMath.weekday (3652059 + - (4 * 30)) + 1) mod 7))
        in *.
      rewrite seqZ_app by lia.
      replace (cur + (3652059 - cur)) with DateMath.MAXORDINAL
        by (unfold DateMath.MAXORDINAL; lia).
      rewrite (seqZ_cons DateMath.MAXORDINAL 1) by done.
      change (seqZ (Z.succ DateMath.MAXORDINAL) (Z.pred 1)) with (@nil Z).
      rewrite calendar_loop_last; [done|].
      apply Forall_forall. intros x Hx%elem_of_seqZ.
      unfold DateMath.MAXORDINAL. lia.
    + rewrite date_plus_underflow by lia. done.
Qed.

(** ** A document that is no record, and the lines a run prints *)

(** Property X11.  When the record file holds a JSON document that is no
    object, the run raises [AttributeError] at [data.get] after one reading
    of the clock, and changes nothing. *)
Theorem main_rejects_non_object py_repr w v :
  data_file w = Some (Document v) → (∀ m, v ≠ VDict m) →
  main py_repr w = (Raise AttributeError, tick 1 w).
Proof.
  intros Hfile Hv. unfold main.
  rewrite (bind_ok _ _ _ _ _ (load_data_eq w)).
  unfold loaded, readings_of_load. rewrite Hfile, tick_0.
  assert (add_today_if_missing v w = (Raise AttributeError, tick 1 w)) as Hadd.
  { unfold add_today_if_missing.
    rewrite (bind_ok _ _ _ _ _ (today_str_eq w)).
    destruct v; try done. by destruct (Hv m). }
  by rewrite (bind_raise _ _ _ _ _ Hadd).
Qed.


(** ** Run after run completes *)



(** ** The further properties at sample inputs *)

Example first_text_day_text : DateMath.strftime first_text_day = "1000-01-01".
Proof. reflexivity. Qed.

(** The day before has a year of three digits, which [%Y] does not read. *)
Example year_999_not_read :
  DateMath.strftime (first_text_day - 1) = "999-12-31" ∧
  DateMath.strptime "999-12-31" = None.
Proof. split; reflexivity. Qed.

Lemma today_str_reads_back_witness :
  ∃ t, today_str first_run = (Ok t, tick 1 first_run) ∧
       to_date (VStr t) = Ok (clock first_run (ticks first_run)).
Proof.
  apply (today_str_reads_back first_run).
  vm_compute. split; discriminate.
Defined.

Lemma normalize_dates_order_irrelevant_witness :
  normalize_dates (str_list shuffled_dates)
  = normalize_dates (str_list ordered_dates).
Proof.
  apply (normalize_dates_order_irrelevant shuffled_dates ordered_dates).
  intros s. unfold shuffled_dates, ordered_dates.
  rewrite !elem_of_cons, !elem_of_nil. tauto.
Defined.


Lemma run_keeps_dates_witness :
  ∃ l', stored_dates (snd (main repr_sample later_run)) = Some l' ∧
    ∀ v, v ∈ l' ↔
         v ∈ VStr <$> january
         ∨ v = VStr (DateMath.strftime (clock later_run (ticks later_run))).
Proof.
  apply (run_keeps_dates repr_sample later_run).
  - refine (eq_trans (surjective_pairing _) (f_equal (λ r, (r, _)) _)).
    vm_compute. reflexivity.
  - reflexivity.
Defined.


Lemma today_counts_witness :
  ∃ data' current best,
    add_today_if_missing (VDict three_days_fields) later_run
    = (Ok (data', current, VInt best), tick 2 later_run) ∧
    1 <= current <= best.
Proof.
  apply (today_counts three_days_fields january_days 3 later_run).
  - reflexivity.
  - repeat constructor; vm_compute; discriminate.
  - reflexivity.
  - vm_compute. split; discriminate.
  - intros n. vm_compute. split; [discriminate|reflexivity].
  - reflexivity.
Defined.



Lemma make_calendar_block_outcome_witness :
  let today := clock first_run (ticks first_run) in
  (127 <= today < DateMath.MAXORDINAL →
   ∃ text,
     make_calendar_block (str_list january) 4 first_run
     = (Ok text, tick 1 first_run)) ∧
  (today = DateMath.MAXORDINAL ∨ today <= 120 →
   make_calendar_block (str_list january) 4 first_run
   = (Raise OverflowError, tick 1 first_run)).
Proof.
  apply (make_calendar_block_outcome january january_days first_run).
  - repeat constructor.
  - discriminate.
Defined.

Lemma main_rejects_non_object_witness :
  main repr_sample list_run = (Raise AttributeError, tick 1 list_run).
Proof.
  apply (main_rejects_non_object repr_sample list_run (VList [])).
  - reflexivity.
  - intros m. discriminate.
Defined.

